(** * Asset refresh and history retention

    A shallow embedding of [src/utils/db_utils.py] and
    [src/services/asset_service.py]: the tracked-symbol registry, the
    current/history metrics store kept in TinyDB tables, the retention
    trim, and the two orchestrators built on them.

    Conventions.
    - A Python [dict] with a fixed set of possible keys is a record whose
      fields are options: [None] is "key absent".
    - [str] is [string]; comparison of two [str] is the lexicographic
      order on code units ([String.leb]).
    - [int] is [Z]; [len] is [length] injected into [Z].
    - Metric values are IEEE binary64 numbers ([float]); the code under
      study only copies them.
    - The wall clock, the market-data provider and the iteration order
      of a [set] are the environment: a sequence of clock readings and
      three functions, bound in a section.
    - Failures of the store itself (I/O) are not modelled, and neither
      are the [except] branches that only they can reach. *)

From Stdlib Require Import ZArith Floats.PrimFloat.
From stdpp Require Import base option list sorting strings pretty.

(** ** Python builtins used by the code *)

Section builtins.
Context {A : Type}.

(** One step of a stable insertion: [x] stood before every element of
    [l] in the input, so it goes before the first [y] with [le x y]. *)
Fixpoint insort (le : A → A → bool) (x : A) (l : list A) : list A :=
  match l with
  | [] => [x]
  | y :: k => if le x y then x :: y :: k else y :: insort le x k
  end.

Definition sorted_by (le : A → A → bool) (l : list A) : list A :=
  foldr (insort le) [] l.

(** [sorted(l, key=key)]: ascending, stable. *)
Definition sorted (key : A → string) : list A → list A :=
  sorted_by (λ x y, String.leb (key x) (key y)).

(** [sorted(l, key=key, reverse=True)]: descending; elements with equal
    keys keep their input order. *)
Definition sorted_reverse (key : A → string) : list A → list A :=
  sorted_by (λ x y, String.leb (key y) (key x)).

(** [l[:stop]] for an [int] stop. *)
Definition slice_to (stop : Z) (l : list A) : list A :=
  if (stop <? 0)%Z
  then take (Z.to_nat (Z.of_nat (length l) + stop)) l
  else take (Z.to_nat stop) l.
End builtins.

(** [str.endswith] *)
Definition endswith (s suffix : string) : bool :=
  let n := String.length s in
  let k := String.length suffix in
  (k <=? n) && String.eqb (String.substring (n - k) k s) suffix.

Definition ascii_is_upper (c : Ascii.ascii) : bool :=
  let n := Ascii.nat_of_ascii c in (65 <=? n) && (n <=? 90).

Definition ascii_is_lower (c : Ascii.ascii) : bool :=
  let n := Ascii.nat_of_ascii c in (97 <=? n) && (n <=? 122).

(** [str.isupper]: at least one cased character and no lowercase one.
    Symbols are read as ASCII text: a character outside ASCII counts as
    uncased here, while Python goes by its Unicode case. The two agree
    on every ASCII symbol. *)
Definition isupper (s : string) : bool :=
  let cs := String.list_ascii_of_string s in
  existsb ascii_is_upper cs && negb (existsb ascii_is_lower cs).

(** ** TinyDB tables

    The library is a dependency of the repository, modelled from its
    documented behaviour: a table maps document ids, assigned by the
    table at insertion, to documents, in insertion order. The id is an
    attribute of the [Document] object handed out by [all] and [search];
    it is not a key of the document. *)

Module TinyDB.
Record Table (D : Type) := mkTable { rows : list (nat * D); next_id : nat }.
Arguments mkTable {D} _ _.
Arguments rows {D} _.
Arguments next_id {D} _.

Section ops.
Context {D : Type}.

Definition empty : Table D := mkTable [] 1.

Definition all (t : Table D) : list D := (rows t).*2.

Definition ids (t : Table D) : list nat := (rows t).*1.

Definition insert (d : D) (t : Table D) : Table D :=
  mkTable (rows t ++ [(next_id t, d)]) (S (next_id t)).

Definition truncate (t : Table D) : Table D := empty.

(** [search(cond)] *)
Definition search (cond : D → bool) (t : Table D) : list D :=
  List.filter cond (all t).

(** [update(fields, cond)]: every matching document is rewritten. *)
Definition update (f : D → D) (cond : D → bool) (t : Table D) : Table D :=
  mkTable (prod_map id (λ d, if cond d then f d else d) <$> rows t) (next_id t).

(** [remove(doc_ids=...)] pops each id in turn. An id that is not in
    the table (or is listed twice) raises [KeyError] before anything
    is written back, and the table stays as it was. The exception
    itself, which would reach the caller, is not modelled; it takes a
    document with a ['doc_id'] key, which the program never writes. *)
Definition remove (doc_ids : list nat) (t : Table D) : Table D :=
  if bool_decide (NoDup doc_ids) && forallb (λ i, bool_decide (i ∈ ids t)) doc_ids
  then mkTable (List.filter (λ r, negb (bool_decide (r.1 ∈ doc_ids))) (rows t)) (next_id t)
  else t.
End ops.
End TinyDB.

(** ** Documents *)

(** The [metadata] sub-dictionary of a history entry. *)
Record Metrics := mkMetrics {
  latest_price : float;
  change_percent_24h : float;
  average_price_7d : float }.

(** The [metadata] argument of [save_asset_metadata]: any of the three
    keys may be missing. *)
Record MetadataDict := mkMetadataDict {
  md_latest_price : option float;
  md_change_percent_24h : option float;
  md_average_price_7d : option float }.

Definition metadata_of (m : Metrics) : MetadataDict :=
  mkMetadataDict (Some (latest_price m)) (Some (change_percent_24h m))
                 (Some (average_price_7d m)).

(** A document of the history table, as [history_table.all()] hands it
    out. [h_doc_id] is the dictionary key ['doc_id'], which is what
    [e.get('doc_id')] reads. *)
Record HistoryDoc := mkHistoryDoc {
  h_symbol : option string;
  h_timestamp : option string;
  h_metadata : option Metrics;
  h_doc_id : option nat }.

(** A document of the current table. *)
Record CurrentDoc := mkCurrentDoc {
  c_symbol : string;
  c_latest_price : float;
  c_change_percent_24h : float;
  c_average_price_7d : float;
  c_last_updated : string }.

(** [schemas.AssetWithMetadata] *)
Record AssetWithMetadata := mkAsset {
  a_symbol : string;
  a_latest_price : option float;
  a_change_percent_24h : option float;
  a_average_price_7d : option float;
  a_last_updated : option string }.

(** ** The history table as [trim_asset_history] sees it

    [trim_asset_history] takes the table as an argument and uses two
    methods of it. *)

Class HistoryTable (T : Type) := {
  table_all : T → list HistoryDoc;
  table_remove : list nat → T → T }.

#[export] Instance tinydb_history : HistoryTable (TinyDB.Table HistoryDoc) := {
  table_all := TinyDB.all;
  table_remove := TinyDB.remove }.

(** ** [asset_service.trim_asset_history] *)

Definition symbol_is (symbol : string) (e : HistoryDoc) : bool :=
  bool_decide (h_symbol e = Some symbol).

Definition timestamp_key (e : HistoryDoc) : string :=
  default "" (h_timestamp e).

Section trim.
Context {T : Type} `{!HistoryTable T}.

Definition entries_of (symbol : string) (history_table : T) : list HistoryDoc :=
  List.filter (symbol_is symbol) (table_all history_table).

Definition trim_asset_history (symbol : string) (keep_last : Z)
    (history_table : T) : T :=
  let entries := entries_of symbol history_table in
  if (Z.of_nat (length entries) >? keep_last)%Z then
    let entries_sorted := sorted timestamp_key entries in
    let to_remove :=
      slice_to (Z.of_nat (length entries) - keep_last) entries_sorted in
    let doc_ids := omap h_doc_id to_remove in
    match doc_ids with
    | [] => history_table
    | _ :: _ => table_remove doc_ids history_table
    end
  else history_table.
End trim.

(** ** The table double of [tests/test_db_utils.py] *)

Module DummyHistoryTable.
Record t := mk { entries : list HistoryDoc }.

Definition all (tb : t) : list HistoryDoc := entries tb.

(** [e['doc_id'] not in doc_id_set] *)
Definition not_listed (doc_ids : list nat) (e : HistoryDoc) : bool :=
  match h_doc_id e with
  | Some i => negb (bool_decide (i ∈ doc_ids))
  | None => true
  end.

(** [remove]: the entries whose ['doc_id'] is not listed are kept. An
    entry without the key raises [KeyError] and [entries] is not
    reassigned. *)
Definition remove (doc_ids : list nat) (tb : t) : t :=
  if forallb (λ e, bool_decide (is_Some (h_doc_id e))) (entries tb)
  then mk (List.filter (not_listed doc_ids) (entries tb))
  else tb.

(** [insert]: a copy of the entry with ['doc_id'] set to the length. *)
Definition insert (e : HistoryDoc) (tb : t) : t :=
  mk (entries tb ++
      [mkHistoryDoc (h_symbol e) (h_timestamp e) (h_metadata e)
                    (Some (length (entries tb)))]).

Definition truncate (tb : t) : t := mk [].
End DummyHistoryTable.

#[export] Instance dummy_history : HistoryTable DummyHistoryTable.t := {
  table_all := DummyHistoryTable.all;
  table_remove := DummyHistoryTable.remove }.

(** ** The store and its environment *)

(** The three tables of [db], and the number of clock readings taken so
    far. *)
Record World := mkWorld {
  symbols_table : TinyDB.Table (list string);
  history_table : TinyDB.Table HistoryDoc;
  current_table : TinyDB.Table CurrentDoc;
  clock : nat }.

Definition fresh_store : World :=
  mkWorld TinyDB.empty TinyDB.empty TinyDB.empty 0.

Definition with_symbols (f : TinyDB.Table (list string) → TinyDB.Table (list string))
    (w : World) : World :=
  mkWorld (f (symbols_table w)) (history_table w) (current_table w) (clock w).

Definition with_history (f : TinyDB.Table HistoryDoc → TinyDB.Table HistoryDoc)
    (w : World) : World :=
  mkWorld (symbols_table w) (f (history_table w)) (current_table w) (clock w).

Definition with_current (f : TinyDB.Table CurrentDoc → TinyDB.Table CurrentDoc)
    (w : World) : World :=
  mkWorld (symbols_table w) (history_table w) (f (current_table w)) (clock w).

Definition tick (w : World) : World :=
  mkWorld (symbols_table w) (history_table w) (current_table w) (S (clock w)).

(** The dictionary returned by [fetch_financial_data]; the empty
    dictionary is [None]. *)
Record FinancialData := mkFinancialData {
  fd_symbol : string;
  fd_metrics : Metrics }.

(** The result dictionary of [ingest_assets_service]. *)
Record BatchResult := mkBatchResult {
  message : string;
  updated_count : nat;
  success_messages : list string;
  error_messages : list string;
  updated_assets : list string }.

(** [validate_symbol_format] *)
Definition validate_symbol_format (symbol : string) : bool :=
  endswith symbol "-USD" || isupper symbol.

Definition default_symbols : list string := ["BTC-USD"; "ETH-USD"; "TSLA"].

(** [get_symbols]: every document of the symbols table has the key
    ['symbols'], so the query selects all of them. *)
Definition get_symbols (w : World) : list string * World :=
  match TinyDB.search (λ _, true) (symbols_table w) with
  | [] => (default_symbols, with_symbols (TinyDB.insert default_symbols) w)
  | doc :: _ => (doc, w)
  end.

(** [truncate_db] *)
Definition truncate_db (w : World) : World :=
  with_history TinyDB.truncate (with_symbols TinyDB.truncate w).

(** [get_assets_with_metadata] *)
Definition get_assets_with_metadata (w : World) : list CurrentDoc :=
  TinyDB.all (current_table w).

(** [get_asset_history]: [x['timestamp']] on an entry without the key
    raises [KeyError], which the function turns into the empty list. *)
Definition get_asset_history (symbol : string) (limit : Z) (w : World)
    : list HistoryDoc :=
  let results := TinyDB.search (symbol_is symbol) (history_table w) in
  if forallb (λ x, bool_decide (is_Some (h_timestamp x))) results
  then slice_to limit (sorted_reverse timestamp_key results)
  else [].

(** [trim_all_histories], on the table of the store. *)
Definition trim_all_histories (symbols : list string) (keep_last : Z)
    (w : World) : World :=
  foldl (λ w symbol, with_history (trim_asset_history symbol keep_last) w)
        w symbols.

Section environment.
(** [datetime.now().isoformat()] at the n-th reading of the clock. *)
Variable now : nat → string.
(** [not yf.Ticker(symbol).history(period="1d").empty], with any
    exception read as [False]. *)
Variable ticker_has_data : string → bool.
(** The three metrics [fetch_financial_data] derives from
    [yf.Ticker(symbol).history(period="7d")]; [None] when the frame is
    empty or the provider raises. *)
Variable ticker_metrics : string → option Metrics.
(** [list(set(l))]: the elements of [l], each once, in the order the
    interpreter's hashing gives them. *)
Variable list_of_set : list string → list string.

(** [is_valid_symbol] *)
Definition is_valid_symbol (symbol : string) : bool := ticker_has_data symbol.

(** [common_utils.fetch_financial_data] *)
Definition fetch_financial_data (symbol : string) : option FinancialData :=
  mkFinancialData symbol <$> ticker_metrics symbol.

(** [save_symbols] *)
Definition save_symbols (symbols : list string) (w : World)
    : list string * World :=
  let format_valid := List.filter validate_symbol_format symbols in
  match format_valid with
  | [] => ([], w)
  | _ :: _ =>
    let checks := is_valid_symbol <$> format_valid in
    let valid_symbols := (List.filter snd (zip format_valid checks)).*1 in
    match valid_symbols with
    | [] => ([], w)
    | _ :: _ =>
      let '(existing_symbols, w) := get_symbols w in
      let updated_symbols := list_of_set (existing_symbols ++ valid_symbols) in
      let w := with_symbols TinyDB.truncate w in
      let w := with_symbols (TinyDB.insert updated_symbols) w in
      (updated_symbols, w)
    end
  end.

(** [save_asset_metadata]: a missing key of [metadata] raises
    [KeyError] after the clock was read and before any write; the
    function logs it and returns. *)
Definition save_asset_metadata (symbol : string) (metadata : MetadataDict)
    (w : World) : World :=
  let timestamp := now (clock w) in
  let w := tick w in
  match md_latest_price metadata, md_change_percent_24h metadata,
        md_average_price_7d metadata with
  | Some lp, Some cp, Some ap =>
    let history_entry :=
      mkHistoryDoc (Some symbol) (Some timestamp)
                   (Some (mkMetrics lp cp ap)) None in
    let w := with_history (TinyDB.insert history_entry) w in
    let current_metadata := mkCurrentDoc symbol lp cp ap timestamp in
    let is_asset (d : CurrentDoc) := bool_decide (c_symbol d = symbol) in
    match TinyDB.search is_asset (current_table w) with
    | _ :: _ =>
      with_current (TinyDB.update (λ _, current_metadata) is_asset) w
    | [] => with_current (TinyDB.insert current_metadata) w
    end
  | _, _, _ => w
  end.

(** [add_symbol_with_metadata] *)
Definition add_symbol_with_metadata (symbol : string) (metadata : MetadataDict)
    (w : World) : (bool * string) * World :=
  if negb (validate_symbol_format symbol)
  then ((false, "Invalid symbol format: " +:+ symbol), w)
  else if negb (is_valid_symbol symbol)
  then ((false, "Symbol does not exist or is not valid: " +:+ symbol), w)
  else
    let '(existing_symbols, w) := get_symbols w in
    let w :=
      if bool_decide (symbol ∈ existing_symbols) then w
      else
        let updated_symbols := existing_symbols ++ [symbol] in
        with_symbols (TinyDB.insert updated_symbols)
                     (with_symbols TinyDB.truncate w) in
    let w := save_asset_metadata symbol metadata w in
    ((true, "Successfully added " +:+ symbol +:+ " with metadata"), w).

(** [build_asset_with_metadata] *)
Definition build_asset_with_metadata (data : FinancialData) (w : World)
    : AssetWithMetadata * World :=
  (mkAsset (fd_symbol data)
           (Some (latest_price (fd_metrics data)))
           (Some (change_percent_24h (fd_metrics data)))
           (Some (average_price_7d (fd_metrics data)))
           (Some (now (clock w))),
   tick w).

(** [fetch_and_save_asset] *)
Definition fetch_and_save_asset (symbol : string) (w : World)
    : option AssetWithMetadata * World :=
  match fetch_financial_data symbol with
  | Some data =>
    let w := save_asset_metadata (fd_symbol data) (metadata_of (fd_metrics data)) w in
    let w := with_history (trim_asset_history (fd_symbol data) 10) w in
    let '(asset, w) := build_asset_with_metadata data w in
    (Some asset, w)
  | None => (None, w)
  end.

(** [asyncio.gather] over the tasks: the results come in the order of the
    arguments. None of the coroutines gathered here reaches a point
    where it yields to the event loop (the provider is called
    synchronously), so they also run in that order. *)
Fixpoint gather {A : Type} (tasks : list (World → A * World)) (w : World)
    : list A * World :=
  match tasks with
  | [] => ([], w)
  | task :: rest =>
    let '(r, w) := task w in
    let '(rs, w) := gather rest w in
    (r :: rs, w)
  end.

(** [update_assets_and_trim_history] *)
Definition update_assets_and_trim_history (symbols : list string) (w : World)
    : World :=
  (gather (fetch_and_save_asset <$> symbols) w).2.

(** [add_assets_service] *)
Definition add_assets_service (symbols : list string) (w : World)
    : list AssetWithMetadata * World :=
  let tasks := fetch_and_save_asset <$> symbols in
  let '(results, w) := gather tasks w in
  let assets_with_metadata :=
    (λ '(symbol, asset),
       match asset with
       | Some asset => asset
       | None => mkAsset symbol None None None None
       end) <$> zip symbols results in
  (assets_with_metadata, w).

(** The loop state of [ingest_assets_service]. *)
Record IngestAcc := mkIngestAcc {
  acc_results : list AssetWithMetadata;
  acc_success : list string;
  acc_errors : list string }.

(** One iteration of the loop of [ingest_assets_service]. The metadata
    handed to [add_symbol_with_metadata] are the three fields of the
    asset just fetched, which are all set. *)
Definition ingest_step (all_symbols : list string)
    (st : IngestAcc * World) (symbol : string) : IngestAcc * World :=
  let '(acc, w) := st in
  let '(asset, w) := fetch_and_save_asset symbol w in
  match asset with
  | Some asset =>
    if negb (bool_decide (symbol ∈ all_symbols)) then
      let '((success, msg), w) :=
        add_symbol_with_metadata symbol
          (mkMetadataDict (a_latest_price asset) (a_change_percent_24h asset)
                          (a_average_price_7d asset)) w in
      if success
      then (mkIngestAcc (acc_results acc ++ [asset])
                        (acc_success acc ++ [msg]) (acc_errors acc), w)
      else (mkIngestAcc (acc_results acc ++ [asset])
                        (acc_success acc) (acc_errors acc ++ [msg]), w)
    else
      (mkIngestAcc (acc_results acc ++ [asset])
                   (acc_success acc ++ ["Updated " +:+ symbol])
                   (acc_errors acc), w)
  | None =>
    (mkIngestAcc (acc_results acc) (acc_success acc)
                 (acc_errors acc ++ ["Could not fetch data for " +:+ symbol]), w)
  end.

(** [ingest_assets_service] *)
Definition ingest_assets_service (update_symbols : list string) (w : World)
    : BatchResult * World :=
  let '(all_symbols, w) := get_symbols w in
  let '(acc, w) :=
    foldl (ingest_step all_symbols) (mkIngestAcc [] [] [], w) update_symbols in
  (mkBatchResult
     ("Processed " +:+ pretty (length update_symbols) +:+ " symbols")
     (length (acc_results acc))
     (acc_success acc)
     (acc_errors acc)
     (a_symbol <$> acc_results acc),
   w).
End environment.

(** ** [main.py]: the handlers of the HTTP routes

    A handler returns the body of its response or raises an
    [HTTPException]; the handlers' last [except Exception] branch, which
    answers 500, is reached by failures that are not modelled, and by
    the validation error of [AssetHistory] noted below. *)

Inductive Response (A : Type) : Type :=
  | Body (body : A)
  | HTTPException (status_code : nat) (detail : string).
Arguments Body {A} _.
Arguments HTTPException {A} _ _.

(** [schemas.AssetHistoryEntry] *)
Record AssetHistoryEntry := mkAssetHistoryEntry {
  he_symbol : string;
  he_timestamp : string;
  he_metadata : Metrics }.

(** A document of the current table read as [AssetWithMetadata]. *)
Definition asset_of_current (c : CurrentDoc) : AssetWithMetadata :=
  mkAsset (c_symbol c) (Some (c_latest_price c)) (Some (c_change_percent_24h c))
          (Some (c_average_price_7d c)) (Some (c_last_updated c)).

(** A document of the history table read as [AssetHistoryEntry]: the
    three fields are required, other keys are ignored. *)
Definition history_entry_of (e : HistoryDoc) : option AssetHistoryEntry :=
  match h_symbol e, h_timestamp e, h_metadata e with
  | Some symbol, Some timestamp, Some metadata =>
    Some (mkAssetHistoryEntry symbol timestamp metadata)
  | _, _, _ => None
  end.


(** [get_assets] *)
Definition get_assets (w : World) : Response (list AssetWithMetadata) * World :=
  match get_assets_with_metadata w with
  | [] =>
    let '(symbols, w) := get_symbols w in
    (Body ((λ s, mkAsset s None None None None) <$> symbols), w)
  | assets_with_metadata => (Body (asset_of_current <$> assets_with_metadata), w)
  end.

Section handlers.
Variable now : nat → string.
Variable ticker_has_data : string → bool.
Variable ticker_metrics : string → option Metrics.
Variable list_of_set : list string → list string.
(** What the language-model chain answers to the data it is given;
    [None] when the invocation raises. *)
Variable llm : list FinancialData → option string.
(** The text of the validation error of [AssetHistory]. *)
Variable validation_error : list HistoryDoc → string.

(** [add_assets]. The handler checks for an empty list itself, although
    [AddAssetsRequest] already asks for at least one symbol. *)
Definition add_assets (symbols : list string) (w : World)
    : Response (list AssetWithMetadata) * World :=
  match symbols with
  | [] =>
    (HTTPException 400 "No symbols provided. Please provide at least one symbol.", w)
  | _ :: _ =>
    let '(updated_symbols, w) := save_symbols ticker_has_data list_of_set symbols w in
    match updated_symbols with
    | [] =>
      (HTTPException 400
         "No valid symbols provided. Symbols should be in format 'BTC-USD' for crypto or 'TSLA' for stocks.",
       w)
    | _ :: _ =>
      let '(assets_with_metadata, w) :=
        add_assets_service now ticker_metrics symbols w in
      (Body assets_with_metadata, w)
    end
  end.

(** [get_asset_history_endpoint]. An entry without [metadata] fails the
    validation of [AssetHistory]; the handler answers 500 with the text
    of the error. *)
Definition get_asset_history_endpoint (symbol : string) (limit : Z) (w : World)
    : Response (list AssetHistoryEntry) :=
  match get_asset_history symbol limit w with
  | [] => HTTPException 404 ("No history found for symbol " +:+ symbol)
  | history =>
    match mapM history_entry_of history with
    | Some entries => Body entries
    | None => HTTPException 500 (validation_error history)
    end
  end.

(** [get_metrics] *)
Definition get_metrics (symbol : string) (w : World)
    : Response AssetWithMetadata * World :=
  match fetch_financial_data ticker_metrics symbol with
  | None => (HTTPException 404 ("Symbol " +:+ symbol +:+ " not found"), w)
  | Some data =>
    let w := save_asset_metadata now symbol (metadata_of (fd_metrics data)) w in
    let last_updated := now (clock w) in
    let w := tick w in
    (Body (mkAsset symbol
                   (Some (latest_price (fd_metrics data)))
                   (Some (change_percent_24h (fd_metrics data)))
                   (Some (average_price_7d (fd_metrics data)))
                   (Some last_updated)),
     w)
  end.




(** [ingest_data]: [request] is the optional body, [assets] its
    optional field. *)
Definition ingest_data (request : option (option (list string))) (w : World)
    : Response BatchResult * World :=
  let '(all_symbols, w) := get_symbols w in
  let update_symbols :=
    match request with
    | Some (Some (s :: rest)) => s :: rest
    | _ => all_symbols
    end in
  let '(result, w) :=
    ingest_assets_service now ticker_has_data ticker_metrics update_symbols w in
  match updated_assets result with
  | [] => (HTTPException 400 "No valid data could be fetched for any symbol", w)
  | _ :: _ => (Body result, w)
  end.
End handlers.

(** ** [common_utils.convert_numpy_types]

    The values the function walks: dictionaries and lists, which it
    rebuilds, numpy scalars, which it replaces by their [item()], and
    everything else, which it returns as it is (tuples among them). *)

Inductive PyScalar : Type :=
  | PyNone
  | PyBool (b : bool)
  | PyInt (n : Z)
  | PyFloat (x : float)
  | PyStr (s : string).

#[local] Unset Elimination Schemes.
Inductive PyValue : Type :=
  | PyNative (v : PyScalar)
  | PyNumpy (v : PyScalar)
  | PyList (items : list PyValue)
  | PyTuple (items : list PyValue)
  | PyDict (items : list (string * PyValue)).
#[local] Set Elimination Schemes.

Fixpoint convert_numpy_types (obj : PyValue) : PyValue :=
  match obj with
  | PyDict items => PyDict (List.map (λ '(k, v), (k, convert_numpy_types v)) items)
  | PyList items => PyList (List.map convert_numpy_types items)
  | PyNumpy v => PyNative v
  | _ => obj
  end.

(** * Notions used in the statements *)

(** ** What the trim relies on in a table *)

(** Removal only deletes documents, and once a set of ids has been
    removed (or the removal was refused), removing part of it again
    changes nothing. *)
Class HistoryTableLaws (T : Type) `{!HistoryTable T} := {
  table_remove_sublist (ids : list nat) (t : T) :
    table_all (table_remove ids t) `sublist_of` table_all t;
  table_remove_absorb (ids : list nat) (t : T) :
    table_remove ids t = t ∨
    ∀ ids', ids' ⊆ ids →
      table_remove ids' (table_remove ids t) = table_remove ids t }.

Section trim_notions.
Context {T : Type} `{!HistoryTable T}.

(** The ids that a call of [trim_asset_history] hands to [remove]. *)
Definition trim_doc_ids (symbol : string) (keep_last : Z) (t : T) : list nat :=
  let entries := entries_of symbol t in
  omap h_doc_id
    (slice_to (Z.of_nat (length entries) - keep_last) (sorted timestamp_key entries)).
End trim_notions.

(** ** Snapshots *)

(** The entry is strictly older than the clock reading [timestamp]. *)
Definition earlier_than (timestamp : string) (e : HistoryDoc) : bool :=
  match h_timestamp e with
  | Some t => String.ltb t timestamp
  | None => false
  end.

(** The effect of a snapshot of [symbol] with the metrics [m], stamped
    [timestamp], as read back from the store: there is a current record
    of the symbol, every current record of the symbol carries the three
    metrics and the timestamp, and the newest history entry of the
    symbol is the snapshot. *)
Definition snapshot_effect (symbol : string) (m : Metrics) (timestamp : string)
    (w : World) : Prop :=
  (∃ c, c ∈ get_assets_with_metadata w ∧ c_symbol c = symbol) ∧
  (∀ c, c ∈ get_assets_with_metadata w → c_symbol c = symbol →
        c_latest_price c = latest_price m ∧
        c_change_percent_24h c = change_percent_24h m ∧
        c_average_price_7d c = average_price_7d m ∧
        c_last_updated c = timestamp) ∧
  get_asset_history symbol 1 w
  = [mkHistoryDoc (Some symbol) (Some timestamp) (Some m) None].

(** The current record of a symbol carries the timestamp of the newest
    history entry of that symbol, whenever the symbol has both. *)
Definition coherent (w : World) : Prop :=
  ∀ c e, c ∈ get_assets_with_metadata w →
         get_asset_history (c_symbol c) 1 w = [e] →
         h_timestamp e = Some (c_last_updated c).

(** ** The orchestrators *)

Section orchestrator_notions.
Variable ticker_has_data : string → bool.
Variable ticker_metrics : string → option Metrics.
Variable all_symbols : list string.

(** The record [add_assets_service] returns for [symbol]: the fetched
    metrics with some timestamp, or the placeholder that carries the
    symbol alone. *)
Definition is_result_of (symbol : string) (a : AssetWithMetadata) : Prop :=
  match ticker_metrics symbol with
  | Some m =>
    a_symbol a = symbol ∧
    a_latest_price a = Some (latest_price m) ∧
    a_change_percent_24h a = Some (change_percent_24h m) ∧
    a_average_price_7d a = Some (average_price_7d m) ∧
    is_Some (a_last_updated a)
  | None => a = mkAsset symbol None None None None
  end.

(** The message with which [add_symbol_with_metadata] refuses a symbol,
    if it does. *)
Definition registration_failure (symbol : string) : option string :=
  if negb (validate_symbol_format symbol)
  then Some ("Invalid symbol format: " +:+ symbol)
  else if negb (ticker_has_data symbol)
  then Some ("Symbol does not exist or is not valid: " +:+ symbol)
  else None.

(** The symbol's fetch returns data. *)
Definition fetched (symbol : string) : bool :=
  bool_decide (is_Some (ticker_metrics symbol)).

(** What one iteration of the ingestion loop appends to the three
    lists, as functions of the symbol alone. *)
Definition ingest_updated (symbol : string) : list string :=
  if fetched symbol then [symbol] else [].

Definition ingest_errors (symbol : string) : list string :=
  if fetched symbol then
    if bool_decide (symbol ∈ all_symbols) then []
    else option_list (registration_failure symbol)
  else ["Could not fetch data for " +:+ symbol].

Definition ingest_success (symbol : string) : list string :=
  if fetched symbol then
    if bool_decide (symbol ∈ all_symbols) then ["Updated " +:+ symbol]
    else match registration_failure symbol with
         | Some _ => []
         | None => ["Successfully added " +:+ symbol +:+ " with metadata"]
         end
  else [].
End orchestrator_notions.

(** ** Reachable stores *)

Section store_steps.
Variable now : nat → string.
Variable ticker_has_data : string → bool.
Variable list_of_set : list string → list string.

(** The operations of [db_utils] and [asset_service] that write to the
    store or read the clock. *)
Inductive store_step : World → World → Prop :=
  | step_save symbol metadata w :
      store_step w (save_asset_metadata now symbol metadata w)
  | step_trim symbol keep_last w :
      store_step w (with_history (trim_asset_history symbol keep_last) w)
  | step_truncate w :
      store_step w (truncate_db w)
  | step_get_symbols w :
      store_step w (get_symbols w).2
  | step_save_symbols symbols w :
      store_step w (save_symbols ticker_has_data list_of_set symbols w).2
  | step_add_symbol symbol metadata w :
      store_step w (add_symbol_with_metadata now ticker_has_data symbol metadata w).2
  | step_clock w :
      store_step w (tick w).

Inductive reachable : World → Prop :=
  | reachable_fresh : reachable fresh_store
  | reachable_step w w' : reachable w → store_step w w' → reachable w'.

(** The history entries of a reachable store are the ones
    [save_asset_metadata] wrote: no ['doc_id'] key, and the timestamp of
    an earlier clock reading. *)
Definition history_inv (w : World) : Prop :=
  Forall (λ e, h_doc_id e = None ∧ ∃ i, i < clock w ∧ h_timestamp e = Some (now i))
         (TinyDB.all (history_table w)).
End store_steps.

(** ** Registration *)

(** The input symbols that pass the format check and the existence
    check, in input order. *)
Definition valid_inputs (ticker_has_data : string → bool) (symbols : list string)
    : list string :=
  List.filter (λ s, validate_symbol_format s && is_valid_symbol ticker_has_data s)
              symbols.

(** ** What an ingestion stores *)

Section ingest_notions.
Variable ticker_has_data : string → bool.
Variable ticker_metrics : string → option Metrics.
Variable all_symbols : list string.

(** The loop hands [symbol] to [add_symbol_with_metadata], and the
    registration goes through. *)
Definition ingest_registers (symbol : string) : bool :=
  fetched ticker_metrics symbol
  && negb (bool_decide (symbol ∈ all_symbols))
  && bool_decide (registration_failure ticker_has_data symbol = None).

(** The symbols of the history entries that one iteration of the loop
    writes. *)
Definition ingest_snapshots (symbol : string) : list string :=
  if fetched ticker_metrics symbol
  then if ingest_registers symbol then [symbol; symbol] else [symbol]
  else [].
End ingest_notions.

(** ** Values that hold numpy scalars *)

(** A numpy scalar can be reached from [obj] through dictionaries and
    lists. *)
Fixpoint has_numpy (obj : PyValue) : bool :=
  match obj with
  | PyNumpy _ => true
  | PyList items => existsb has_numpy items
  | PyDict items => existsb (λ kv, has_numpy kv.2) items
  | _ => false
  end.

(** ** A sample environment

    A clock that reads one second later at every reading (and stays at
    [:59] from then on), a provider that has seven days of data for
    three tickers and one day of data for two of them, and the
    first-occurrence order for [list(set(...))] ([remove_dups]). *)

Definition two_digits (n : nat) : string :=
  (if n <? 10 then "0" else "") +:+ pretty n.

Definition sample_clock (n : nat) : string :=
  "2024-01-01T00:00:" +:+ two_digits (n `min` 59).

Definition sample_metrics : Metrics := mkMetrics 100 1.5 98.

Definition sample_tickers : list string := ["AAPL"; "GOOG"; "aapl"].

Definition sample_has_data (symbol : string) : bool :=
  bool_decide (symbol ∈ ["AAPL"; "GOOG"]).

Definition sample_ticker_metrics (symbol : string) : option Metrics :=
  if bool_decide (symbol ∈ sample_tickers) then Some sample_metrics else None.

(** A clock that is set back between its first two readings, as a
    naive local [datetime.now()] is at the end of daylight saving
    time. *)
Definition clock_set_back (n : nat) : string :=
  match n with
  | 0 => "2024-11-03T01:30:00"
  | S _ => "2024-11-03T01:00:00"
  end.

(** Two snapshots of one symbol taken with that clock. *)
Definition set_back_first : World :=
  save_asset_metadata clock_set_back "TSLA" (metadata_of (mkMetrics 100 1.5 98))
                      fresh_store.

Definition set_back_second : World :=
  save_asset_metadata clock_set_back "TSLA" (metadata_of (mkMetrics 101 1 99))
                      set_back_first.

(** The store after [n] snapshots of one symbol. *)
Definition after_snapshots (n : nat) (symbol : string) : World :=
  Nat.iter n (save_asset_metadata sample_clock symbol (metadata_of sample_metrics))
           fresh_store.

(** The table built by [test_trim_asset_history]. *)
Definition test_history_table : DummyHistoryTable.t :=
  DummyHistoryTable.mk
    ((λ i, mkHistoryDoc (Some "TSLA") (Some ("2024-01-01T00:00:" +:+ two_digits i))
                        None (Some i)) <$> seq 0 12).

(** * Properties *)

(** ** The stable sort *)

Section sorting_facts.
Context {A : Type} (le : A → A → bool).
Hypothesis le_trans : ∀ x y z, le x y = true → le y z = true → le x z = true.
Hypothesis le_total : ∀ x y, le x y = false → le y x = true.

Let R (x y : A) : Prop := le x y = true.

Lemma insort_Permutation x l : insort le x l ≡ₚ x :: l.
Proof.
  induction l as [|y k IH]; simpl; [done|].
  destruct (le x y); [done|]. rewrite IH. apply Permutation_swap.
Qed.

Lemma sorted_by_Permutation l : sorted_by le l ≡ₚ l.
Proof.
  induction l as [|x l IH]; simpl; [done|].
  by rewrite insort_Permutation, IH.
Qed.

Lemma sorted_by_length l : length (sorted_by le l) = length l.
Proof. by rewrite sorted_by_Permutation. Qed.

Lemma insort_sublist x l : l `sublist_of` insort le x l.
Proof.
  induction l as [|y k IH]; simpl.
  - apply sublist_nil_l.
  - destruct (le x y); [by apply sublist_cons|by apply sublist_skip].
Qed.

(** An element that is below everything in [l] is inserted in front. *)
Lemma insort_least x l : Forall (R x) l → insort le x l = x :: l.
Proof. destruct 1 as [|y k Hy _]; simpl; [done|]. unfold R in Hy. by rewrite Hy. Qed.

Lemma insort_StronglySorted x l :
  StronglySorted R l → StronglySorted R (insort le x l).
Proof.
  induction 1 as [|y k Hk IH Hy]; simpl.
  - repeat constructor.
  - destruct (le x y) eqn:Hxy.
    + constructor; [by constructor|]. constructor; [done|].
      eapply Forall_impl; [exact Hy|]. intros z Hz. by eapply le_trans.
    + constructor; [done|].
      rewrite insort_Permutation. constructor; [|done]. by apply le_total.
Qed.

Lemma sorted_by_StronglySorted l : StronglySorted R (sorted_by le l).
Proof.
  induction l as [|x l IH]; simpl; [constructor|].
  by apply insort_StronglySorted.
Qed.

(** Inserting the same element into a sorted list and into a
    subsequence of it keeps the subsequence relation. *)
Lemma insort_sublist_mono x s s' :
  StronglySorted R s' → s `sublist_of` s' →
  insort le x s `sublist_of` insort le x s'.
Proof.
  intros Hs' Hsub. induction Hsub as [|y s s' Hsub IH|y s s' Hsub IH]; simpl.
  - done.
  - apply StronglySorted_inv in Hs' as [Hs' _].
    destruct (le x y); [by do 2 apply sublist_skip|].
    apply sublist_skip. by apply IH.
  - apply StronglySorted_inv in Hs' as [Hs' Hy].
    destruct (le x y) eqn:Hxy.
    + rewrite insort_least.
      * by apply sublist_skip, sublist_cons.
      * eapply Forall_impl.
        -- eapply Forall_forall. intros z Hz. eapply Forall_forall in Hy; [exact Hy|].
           by eapply elem_of_sublist.
        -- intros z Hz. by eapply le_trans.
    + apply sublist_cons. by apply IH.
Qed.

(** Sorting commutes with taking subsequences: this is stability, in
    the form the retention proofs use. *)
Lemma sorted_by_sublist l l' :
  l `sublist_of` l' → sorted_by le l `sublist_of` sorted_by le l'.
Proof.
  induction 1 as [|x l l' Hsub IH|x l l' Hsub IH]; simpl.
  - done.
  - apply insort_sublist_mono; [apply sorted_by_StronglySorted|done].
  - etrans; [exact IH|apply insort_sublist].
Qed.
End sorting_facts.

Lemma string_leb_trans (a b c : string) :
  String.leb a b = true → String.leb b c = true → String.leb a c = true.
Proof.
  intros H1%Is_true_true H2%Is_true_true. apply Is_true_true.
  change (String.le a c). by trans b.
Qed.

Lemma string_leb_total (a b : string) :
  String.leb a b = false → String.leb b a = true.
Proof.
  intros H. destruct (String.leb_total a b) as [H'|H']; congruence.
Qed.

Lemma sorted_sublist {A} (key : A → string) (l l' : list A) :
  l `sublist_of` l' → sorted key l `sublist_of` sorted key l'.
Proof.
  apply sorted_by_sublist.
  - intros x y z. apply string_leb_trans.
  - intros x y. apply string_leb_total.
Qed.

Lemma sorted_length {A} (key : A → string) (l : list A) :
  length (sorted key l) = length l.
Proof. apply sorted_by_length. Qed.

(** A prefix of a subsequence sits inside the prefix of the whole list
    that is longer by the number of dropped elements. *)
Lemma take_sublist_shift {A} (l l' : list A) (j : nat) :
  l `sublist_of` l' →
  take j l `sublist_of` take (j + (length l' - length l)) l'.
Proof.
  intros Hsub. revert j.
  induction Hsub as [|x l l' Hsub IH|x l l' Hsub IH]; intros j; simpl.
  - by rewrite !take_nil.
  - destruct j as [|j]; simpl; [apply sublist_nil_l|].
    apply sublist_skip, IH.
  - apply sublist_length in Hsub as Hlen.
    replace (j + (S (length l') - length l)) with (S (j + (length l' - length l))) by lia.
    simpl. apply sublist_cons, IH.
Qed.

Lemma filter_sublist {A} (f : A → bool) (l : list A) :
  List.filter f l `sublist_of` l.
Proof.
  induction l as [|x l IH]; simpl; [done|].
  destruct (f x); [by apply sublist_skip|by apply sublist_cons].
Qed.

Lemma filter_sublist_mono {A} (f : A → bool) (l l' : list A) :
  l `sublist_of` l' → List.filter f l `sublist_of` List.filter f l'.
Proof.
  induction 1 as [|x l l' Hsub IH|x l l' Hsub IH]; simpl; [done|..].
  - destruct (f x); [by apply sublist_skip|done].
  - destruct (f x); [by apply sublist_cons|done].
Qed.

Lemma filter_all {A} (f : A → bool) (l : list A) :
  (∀ x, x ∈ l → f x = true) → List.filter f l = l.
Proof.
  induction l as [|x l IH]; simpl; intros H; [done|].
  rewrite (H x) by apply list_elem_of_here.
  f_equal. apply IH. intros y Hy. apply H. by apply list_elem_of_further.
Qed.

Lemma elem_of_filter {A} (f : A → bool) (l : list A) (x : A) :
  x ∈ List.filter f l ↔ x ∈ l ∧ f x = true.
Proof. rewrite !list_elem_of_In. apply filter_In. Qed.

Lemma slice_to_sublist {A} (stop : Z) (l : list A) : slice_to stop l `sublist_of` l.
Proof. unfold slice_to. destruct (_ <? _)%Z; apply sublist_take. Qed.

Lemma slice_to_take {A} (stop : Z) (l : list A) :
  (0 ≤ stop)%Z → slice_to stop l = take (Z.to_nat stop) l.
Proof. intros H. unfold slice_to. destruct (Z.ltb_spec stop 0); [lia|done]. Qed.

Lemma omap_all_None {A B} (f : A → option B) (l : list A) :
  Forall (λ x, f x = None) l → omap f l = [].
Proof. induction 1 as [|x l Hx _ IH]; simpl; [done|]. by rewrite Hx. Qed.

#[export] Instance tinydb_history_laws : HistoryTableLaws (TinyDB.Table HistoryDoc).
Proof.
  split.
  - intros ids t. simpl. unfold TinyDB.remove.
    destruct (_ && _); [|done].
    unfold TinyDB.all; simpl. apply fmap_sublist, filter_sublist.
  - intros ids t. simpl. unfold TinyDB.remove at 1 3 4.
    destruct (_ && _); [right|by left].
    intros ids' Hsub. unfold TinyDB.remove.
    destruct (_ && _); [|done]. simpl. f_equal.
    apply filter_all. intros r [_ Hr]%elem_of_filter.
    apply negb_true_iff, bool_decide_eq_false in Hr.
    apply negb_true_iff, bool_decide_eq_false. intros Hin. apply Hr, Hsub, Hin.
Qed.

#[export] Instance dummy_history_laws : HistoryTableLaws DummyHistoryTable.t.
Proof.
  split.
  - intros ids t. simpl. unfold DummyHistoryTable.remove.
    destruct (forallb _ _); [|done]. apply filter_sublist.
  - intros ids t. simpl. unfold DummyHistoryTable.remove at 1 3 4.
    destruct (forallb _ _); [right|by left].
    intros ids' Hsub. unfold DummyHistoryTable.remove.
    destruct (forallb _ _); [|done]. simpl. f_equal.
    apply filter_all. intros e [_ He]%elem_of_filter.
    unfold DummyHistoryTable.not_listed in *.
    destruct (h_doc_id e) as [i|]; [|done].
    apply negb_true_iff, bool_decide_eq_false in He.
    apply negb_true_iff, bool_decide_eq_false. intros Hin. apply He, Hsub, Hin.
Qed.

(** ** The retention trim *)

Section trim_facts.
Context {T : Type} `{!HistoryTable T}.

Lemma trim_asset_history_cases symbol keep_last (t : T) :
  trim_asset_history symbol keep_last t = t ∨
  ((Z.of_nat (length (entries_of symbol t)) > keep_last)%Z ∧
   trim_asset_history symbol keep_last t
   = table_remove (trim_doc_ids symbol keep_last t) t).
Proof.
  unfold trim_asset_history, trim_doc_ids.
  destruct (Z.gtb_spec (Z.of_nat (length (entries_of symbol t))) keep_last) as [Hgt|Hle];
    [|by left].
  destruct (omap _ _) eqn:Hids; [by left|]. right. split; [lia|done].
Qed.

(** Within the bound the call does not touch the table. *)
Lemma trim_asset_history_within_bound symbol keep_last (t : T) :
  (Z.of_nat (length (entries_of symbol t)) ≤ keep_last)%Z →
  trim_asset_history symbol keep_last t = t.
Proof.
  intros Hle. unfold trim_asset_history.
  destruct (Z.gtb_spec (Z.of_nat (length (entries_of symbol t))) keep_last); [lia|done].
Qed.

(** Documents without the key ['doc_id'] are never removed: the list
    of ids is empty and [remove] is not called. *)
Lemma trim_asset_history_no_doc_id symbol keep_last (t : T) :
  Forall (λ e, h_doc_id e = None) (entries_of symbol t) →
  trim_asset_history symbol keep_last t = t.
Proof.
  intros Hnone. unfold trim_asset_history.
  destruct (_ >? _)%Z; [|done].
  assert (omap h_doc_id
            (slice_to (Z.of_nat (length (entries_of symbol t)) - keep_last)
                      (sorted timestamp_key (entries_of symbol t))) = []) as ->; [|done].
  apply omap_all_None. eapply Forall_forall. intros e He.
  eapply Forall_forall in Hnone; [exact Hnone|].
  eapply elem_of_sublist in He; [|apply slice_to_sublist].
  unfold sorted in He. by rewrite sorted_by_Permutation in He.
Qed.
End trim_facts.

Section trim_twice.
Context {T : Type} `{!HistoryTable T, !HistoryTableLaws T}.

Lemma entries_of_remove_sublist symbol ids (t : T) :
  entries_of symbol (table_remove ids t) `sublist_of` entries_of symbol t.
Proof. apply filter_sublist_mono, table_remove_sublist. Qed.

(** After a removal, the ids a further trim would pick are among the
    ids the first trim picked on the table before the removal. *)
Lemma trim_doc_ids_after_remove symbol keep_last ids (t : T) :
  (Z.of_nat (length (entries_of symbol (table_remove ids t))) > keep_last)%Z →
  trim_doc_ids symbol keep_last (table_remove ids t)
  ⊆ trim_doc_ids symbol keep_last t.
Proof.
  intros Hgt. pose proof (entries_of_remove_sublist symbol ids t) as Hsub.
  pose proof (sublist_length _ _ Hsub) as Hlen.
  unfold trim_doc_ids. rewrite !slice_to_take by lia.
  intros i (x & Hx & Hi)%list_elem_of_omap.
  apply list_elem_of_omap. exists x. split; [|done].
  eapply elem_of_sublist; [exact Hx|].
  pose proof (take_sublist_shift _ _
    (Z.to_nat (Z.of_nat (length (entries_of symbol (table_remove ids t))) - keep_last))
    (sorted_sublist timestamp_key _ _ Hsub)) as Htake.
  rewrite !sorted_length in Htake.
  by replace (Z.to_nat (Z.of_nat (length (entries_of symbol t)) - keep_last))
    with (Z.to_nat (Z.of_nat (length (entries_of symbol (table_remove ids t))) - keep_last)
          + (length (entries_of symbol t)
             - length (entries_of symbol (table_remove ids t)))) by lia.
Qed.

Lemma trim_asset_history_twice symbol keep_last (t : T) :
  trim_asset_history symbol keep_last (trim_asset_history symbol keep_last t)
  = trim_asset_history symbol keep_last t.
Proof.
  destruct (trim_asset_history_cases symbol keep_last t) as [H1|[Hgt H1]].
  { rewrite H1. exact H1. }
  rewrite H1.
  destruct (table_remove_absorb (trim_doc_ids symbol keep_last t) t) as [E|Habs].
  { rewrite E, H1. exact E. }
  destruct (trim_asset_history_cases symbol keep_last
              (table_remove (trim_doc_ids symbol keep_last t) t)) as [H2|[Hgt2 H2]];
    [done|].
  rewrite H2. apply Habs. apply trim_doc_ids_after_remove. lia.
Qed.
End trim_twice.

(** C3. Trimming is idempotent on the history table of the store: for
    every symbol, every [keep_last] and every state of the table, a
    second call of [trim_asset_history] right after the first leaves
    the table exactly as the first call left it. *)
Theorem trim_asset_history_idempotent
    (symbol : string) (keep_last : Z) (t : TinyDB.Table HistoryDoc) :
  trim_asset_history symbol keep_last (trim_asset_history symbol keep_last t)
  = trim_asset_history symbol keep_last t.
Proof. apply trim_asset_history_twice. Qed.

(** The same on the table double of the tests. *)
Lemma trim_asset_history_idempotent_dummy
    (symbol : string) (keep_last : Z) (t : DummyHistoryTable.t) :
  trim_asset_history symbol keep_last (trim_asset_history symbol keep_last t)
  = trim_asset_history symbol keep_last t.
Proof. apply trim_asset_history_twice. Qed.

(** ** The trim on a table whose entries carry their id

    What the retention is meant to do shows on the table double, where
    every entry has its own id under the key ['doc_id']. *)

Lemma filter_comm {A} (f g : A → bool) (l : list A) :
  List.filter f (List.filter g l) = List.filter g (List.filter f l).
Proof.
  induction l as [|x l IH]; simpl; [done|].
  destruct (f x) eqn:Hf, (g x) eqn:Hg; simpl; rewrite ?Hf, ?Hg, IH; done.
Qed.

Lemma filter_Permutation {A} (f : A → bool) (l l' : list A) :
  l ≡ₚ l' → List.filter f l ≡ₚ List.filter f l'.
Proof.
  induction 1 as [|x l l' _ IH|x y l|l l' l'' _ IH1 _ IH2]; simpl.
  - done.
  - destruct (f x); by rewrite IH.
  - destruct (f x), (f y); try done. apply Permutation_swap.
  - by rewrite IH1.
Qed.

Lemma filter_none {A} (f : A → bool) (l : list A) :
  (∀ x, x ∈ l → f x = false) → List.filter f l = [].
Proof.
  induction l as [|x l IH]; simpl; intros H; [done|].
  rewrite (H x) by apply list_elem_of_here.
  apply IH. intros y Hy. apply H. by apply list_elem_of_further.
Qed.

Lemma omap_sublist {A B} (f : A → option B) (l l' : list A) :
  l `sublist_of` l' → omap f l `sublist_of` omap f l'.
Proof.
  induction 1 as [|x l l' _ IH|x l l' _ IH]; simpl; [done|..].
  - destruct (f x); [by apply sublist_skip|done].
  - destruct (f x); [by apply sublist_cons|done].
Qed.

Lemma omap_length_is_Some {A B} (f : A → option B) (l : list A) :
  Forall (λ x, is_Some (f x)) l → length (omap f l) = length l.
Proof.
  induction 1 as [|x l [y Hy] _ IH]; simpl; [done|]. rewrite Hy. simpl.
  f_equal. exact IH.
Qed.

(** Two entries of a table with distinct ids that have the same id are
    the same entry. *)
Lemma NoDup_omap_eq {A B} (f : A → option B) (l : list A) (x y : A) (i : B) :
  NoDup (omap f l) → x ∈ l → y ∈ l → f x = Some i → f y = Some i → x = y.
Proof.
  induction l as [|z l IH]; simpl; intros Hnd Hx Hy Hfx Hfy.
  { by apply elem_of_nil in Hx. }
  assert (∀ u, u ∈ l → f u = Some i → f z = Some i → False) as Hclash.
  { intros u Hu Hfu Hfz. rewrite Hfz in Hnd. apply NoDup_cons in Hnd as [Hnotin _].
    apply Hnotin, list_elem_of_omap. by exists u. }
  apply elem_of_cons in Hx as [->|Hx]; apply elem_of_cons in Hy as [->|Hy]; [done|..].
  - exfalso. by eapply Hclash.
  - exfalso. by eapply Hclash.
  - apply IH; [|done..]. destruct (f z); [by apply NoDup_cons in Hnd as [_ ?]|done].
Qed.

(** X9. On a table where every entry has its own id and for a bound that
    is not negative: the survivors of the symbol are the entries that
    come after the first [count - keep_last] in timestamp order, their
    number is the smaller of the count and the bound, and the entries
    of every other symbol are as they were. *)
Lemma trim_asset_history_with_ids
    (symbol : string) (keep_last : Z) (t : DummyHistoryTable.t) :
  (0 ≤ keep_last)%Z →
  Forall (λ e, is_Some (h_doc_id e)) (DummyHistoryTable.entries t) →
  NoDup (omap h_doc_id (DummyHistoryTable.entries t)) →
  let entries := entries_of symbol t in
  let t' := trim_asset_history symbol keep_last t in
  entries_of symbol t'
    ≡ₚ drop (length entries - Z.to_nat keep_last) (sorted timestamp_key entries) ∧
  length (entries_of symbol t') = length entries `min` Z.to_nat keep_last ∧
  ∀ other, other ≠ symbol → entries_of other t' = entries_of other t.
Proof.
  intros Hk Hsome Hnodup entries t'.
  assert (sorted timestamp_key entries ≡ₚ entries) as Hperm
    by apply sorted_by_Permutation.
  destruct (decide (Z.of_nat (length entries) ≤ keep_last)%Z) as [Hle|Hgt].
  { subst t'. rewrite trim_asset_history_within_bound by done.
    replace (length entries - Z.to_nat keep_last) with 0 by lia.
    rewrite drop_0. split; [done|]. split; [fold entries; lia|done]. }
  set (j := length entries - Z.to_nat keep_last).
  set (S := sorted timestamp_key entries) in *.
  set (doc_ids := omap h_doc_id (take j S)).
  assert (entries `sublist_of` DummyHistoryTable.entries t) as Hsub
    by apply filter_sublist.
  assert (Forall (λ e, is_Some (h_doc_id e)) S) as HsomeS.
  { rewrite Hperm. apply Forall_forall. intros e He.
    eapply Forall_forall in Hsome; [exact Hsome|]. by eapply elem_of_sublist. }
  assert (t' = DummyHistoryTable.mk
                 (List.filter (DummyHistoryTable.not_listed doc_ids)
                              (DummyHistoryTable.entries t))) as Ht'.
  { subst t'. unfold trim_asset_history. fold entries.
    destruct (Z.gtb_spec (Z.of_nat (length entries)) keep_last); [|lia].
    rewrite slice_to_take by lia.
    replace (Z.to_nat (Z.of_nat (length entries) - keep_last)) with j by lia.
    fold S. fold doc_ids.
    assert (length doc_ids = j) as Hlen.
    { unfold doc_ids. rewrite omap_length_is_Some.
      - rewrite length_take. unfold S, sorted. rewrite sorted_by_length. lia.
      - apply Forall_forall. intros e He.
        eapply Forall_forall in HsomeS; [exact HsomeS|].
        eapply elem_of_sublist; [exact He|apply sublist_take]. }
    destruct doc_ids as [|i ids] eqn:Hids; [simpl in Hlen; lia|].
    simpl. unfold DummyHistoryTable.remove.
    replace (forallb _ (DummyHistoryTable.entries t)) with true; [done|].
    symmetry. apply forallb_forall. intros e He%list_elem_of_In.
    apply bool_decide_eq_true. eapply Forall_forall in Hsome; [exact Hsome|done]. }
  assert (∀ s, entries_of s t'
               = List.filter (DummyHistoryTable.not_listed doc_ids) (entries_of s t))
    as Hentries.
  { intros s. rewrite Ht'. unfold entries_of. simpl.
    unfold DummyHistoryTable.all. simpl. apply filter_comm. }
  assert (NoDup (omap h_doc_id S)) as HnodupS.
  { rewrite Hperm. eapply sublist_NoDup; [exact Hnodup|by apply omap_sublist]. }
  rewrite <- (take_drop j S), omap_app in HnodupS.
  apply NoDup_app in HnodupS as (_ & Hdisjoint & _). fold doc_ids in Hdisjoint.
  assert (List.filter (DummyHistoryTable.not_listed doc_ids) (take j S) = [])
    as Hremoved.
  { apply filter_none. intros e He. unfold DummyHistoryTable.not_listed.
    assert (is_Some (h_doc_id e)) as [i Hi].
    { eapply Forall_forall in HsomeS; [exact HsomeS|].
      eapply elem_of_sublist; [exact He|apply sublist_take]. }
    rewrite Hi. apply negb_false_iff, bool_decide_eq_true.
    apply list_elem_of_omap. by exists e. }
  assert (List.filter (DummyHistoryTable.not_listed doc_ids) (drop j S) = drop j S)
    as Hkept.
  { apply filter_all. intros e He. unfold DummyHistoryTable.not_listed.
    destruct (h_doc_id e) as [i|] eqn:Hi; [|done].
    apply negb_true_iff, bool_decide_eq_false. intros Hin.
    apply (Hdisjoint i Hin). apply list_elem_of_omap. by exists e. }
  assert (entries_of symbol t' ≡ₚ drop j S) as Hsurvivors.
  { rewrite Hentries. fold entries.
    rewrite <- (filter_Permutation _ _ _ Hperm).
    rewrite <- (take_drop j S) at 1.
    by rewrite List.filter_app, Hremoved, Hkept. }
  split; [done|]. split.
  - rewrite Hsurvivors, length_drop. unfold S, sorted. rewrite sorted_by_length. lia.
  - intros other Hother. rewrite Hentries. apply filter_all.
    intros e [He Hsym]%elem_of_filter. unfold DummyHistoryTable.not_listed.
    destruct (h_doc_id e) as [i|] eqn:Hi; [|done].
    apply negb_true_iff, bool_decide_eq_false.
    intros (e' & He' & Hi')%list_elem_of_omap.
    assert (e' ∈ entries) as [He't Hsym']%elem_of_filter.
    { rewrite <- Hperm. eapply elem_of_sublist; [exact He'|apply sublist_take]. }
    assert (e' = e) as -> by (by eapply NoDup_omap_eq).
    apply bool_decide_eq_true in Hsym, Hsym'. congruence.
Qed.

(** [test_trim_asset_history] passes on the model: with entries that
    carry their id under the key ['doc_id'], ten entries survive and
    the two oldest are gone. *)
Example test_trim_asset_history :
  let t := trim_asset_history "TSLA" 10 test_history_table in
  length (DummyHistoryTable.entries t) = 10 ∧
  head (sorted id (omap h_timestamp (DummyHistoryTable.entries t)))
  = Some "2024-01-01T00:00:02".
Proof. vm_compute. done. Qed.

(** [test_validate_symbol_format] *)
Example test_validate_symbol_format :
  validate_symbol_format <$> ["BTC-USD"; "TSLA"; "btc-usd"; "1234"]
  = [true; true; false; false].
Proof. reflexivity. Qed.

(** C1 (retention bound). The code does not meet the bound on the
    history table it writes itself: twelve snapshots of one symbol,
    then [trim_asset_history] with [keep_last = 10], and all twelve
    entries are still stored. The entries written by
    [save_asset_metadata] have no key ['doc_id'], so the list of ids to
    remove is empty. *)
Theorem trim_asset_history_exceeds_bound :
  let t := history_table (after_snapshots 12 "TSLA") in
  length (entries_of "TSLA" t) = 12 ∧
  omap h_doc_id (entries_of "TSLA" t) = [] ∧
  length (entries_of "TSLA" (trim_asset_history "TSLA" 10 t)) = 12.
Proof. vm_compute. done. Qed.

(** C2 (oldest-first eviction). On three snapshots with increasing
    timestamps and [keep_last = 1] the survivors are all three entries,
    not the newest one alone. *)
Theorem trim_asset_history_keeps_oldest :
  let t := history_table (after_snapshots 3 "TSLA") in
  h_timestamp <$> entries_of "TSLA" t
  = [Some "2024-01-01T00:00:00"; Some "2024-01-01T00:00:01";
     Some "2024-01-01T00:00:02"] ∧
  h_timestamp <$> entries_of "TSLA" (trim_asset_history "TSLA" 1 t)
  = [Some "2024-01-01T00:00:00"; Some "2024-01-01T00:00:01";
     Some "2024-01-01T00:00:02"].
Proof. vm_compute. done. Qed.

(** ** Table operations *)

Lemma tinydb_all_insert {D} (d : D) (t : TinyDB.Table D) :
  TinyDB.all (TinyDB.insert d t) = TinyDB.all t ++ [d].
Proof. unfold TinyDB.all, TinyDB.insert; simpl. by rewrite fmap_app. Qed.

Lemma tinydb_all_update {D} (f : D → D) (cond : D → bool) (t : TinyDB.Table D) :
  TinyDB.all (TinyDB.update f cond t)
  = (λ d, if cond d then f d else d) <$> TinyDB.all t.
Proof.
  unfold TinyDB.all, TinyDB.update; simpl.
  induction (TinyDB.rows t) as [|[i d] rs IH]; simpl; [done|]. by f_equal.
Qed.

Lemma tinydb_search_insert {D} (cond : D → bool) (d : D) (t : TinyDB.Table D) :
  TinyDB.search cond (TinyDB.insert d t)
  = TinyDB.search cond t ++ (if cond d then [d] else []).
Proof.
  unfold TinyDB.search. rewrite tinydb_all_insert, List.filter_app. simpl.
  by destruct (cond d).
Qed.

(** The newest element, when it is strictly the largest, comes first in
    the descending sort although it is last in the input. *)
Lemma sorted_by_snoc_first {A} (le : A → A → bool) (l : list A) (x : A) :
  Forall (λ y, le y x = false) l →
  sorted_by le (l ++ [x]) = x :: sorted_by le l.
Proof.
  unfold sorted_by. rewrite foldr_app. simpl.
  induction 1 as [|y l Hy _ IH]; simpl; [done|].
  by rewrite IH; simpl; rewrite Hy.
Qed.

Lemma string_ltb_leb (a b : string) :
  String.ltb a b = true → String.leb b a = false.
Proof.
  unfold String.ltb, String.leb. rewrite (String.compare_antisym b a).
  by destruct (String.compare a b).
Qed.

(** ** Snapshots *)

Section snapshot_facts.
Variable now : nat → string.

Lemma save_asset_metadata_history symbol (m : Metrics) (w : World) :
  history_table (save_asset_metadata now symbol (metadata_of m) w)
  = TinyDB.insert (mkHistoryDoc (Some symbol) (Some (now (clock w))) (Some m) None)
                  (history_table w).
Proof.
  unfold save_asset_metadata. destruct m as [lp cp ap]; simpl.
  by destruct (TinyDB.search _ _).
Qed.

Lemma save_asset_metadata_current symbol (m : Metrics) (w : World) :
  let current_metadata :=
    mkCurrentDoc symbol (latest_price m) (change_percent_24h m)
                 (average_price_7d m) (now (clock w)) in
  let is_asset (d : CurrentDoc) := bool_decide (c_symbol d = symbol) in
  current_table (save_asset_metadata now symbol (metadata_of m) w)
  = match TinyDB.search is_asset (current_table w) with
    | _ :: _ => TinyDB.update (λ _, current_metadata) is_asset (current_table w)
    | [] => TinyDB.insert current_metadata (current_table w)
    end.
Proof.
  unfold save_asset_metadata. destruct m as [lp cp ap]; simpl.
  by destruct (TinyDB.search _ _).
Qed.

(** The current records after a snapshot: the record of the symbol is
    the one just written, the others are the old ones. *)
Lemma save_asset_metadata_current_docs symbol (m : Metrics) w c :
  c ∈ TinyDB.all (current_table (save_asset_metadata now symbol (metadata_of m) w)) →
  c = mkCurrentDoc symbol (latest_price m) (change_percent_24h m)
                   (average_price_7d m) (now (clock w)) ∨
  (c_symbol c ≠ symbol ∧ c ∈ TinyDB.all (current_table w)).
Proof.
  rewrite save_asset_metadata_current.
  destruct (TinyDB.search _ (current_table w)) as [|d0 ds] eqn:Hsearch.
  - rewrite tinydb_all_insert. intros [Hc|Hc]%elem_of_app.
    + destruct (decide (c_symbol c = symbol)) as [Heq|Hne]; [|by right].
      assert (c ∈ TinyDB.search (λ d, bool_decide (c_symbol d = symbol)) (current_table w))
        as Hin by (apply elem_of_filter; split; [done|by apply bool_decide_eq_true]).
      rewrite Hsearch in Hin. by apply elem_of_nil in Hin.
    + apply list_elem_of_singleton in Hc as ->. by left.
  - rewrite tinydb_all_update. intros (d & -> & Hd)%list_elem_of_fmap.
    destruct (bool_decide (c_symbol d = symbol)) eqn:Hcond; [by left|].
    apply bool_decide_eq_false in Hcond. by right.
Qed.

Lemma save_asset_metadata_has_current symbol (m : Metrics) w :
  mkCurrentDoc symbol (latest_price m) (change_percent_24h m)
               (average_price_7d m) (now (clock w))
  ∈ TinyDB.all (current_table (save_asset_metadata now symbol (metadata_of m) w)).
Proof.
  rewrite save_asset_metadata_current.
  destruct (TinyDB.search _ (current_table w)) as [|d0 ds] eqn:Hsearch.
  - rewrite tinydb_all_insert. apply elem_of_app. right. apply list_elem_of_here.
  - assert (d0 ∈ TinyDB.search (λ d, bool_decide (c_symbol d = symbol)) (current_table w))
      as [Hd0 Hc]%elem_of_filter by (rewrite Hsearch; apply list_elem_of_here).
    rewrite tinydb_all_update. apply list_elem_of_fmap. exists d0. by rewrite Hc.
Qed.

(** An entry appended with a timestamp strictly later than those of
    the symbol's stored entries is the one [get_asset_history symbol 1]
    returns. *)
Lemma get_asset_history_inserted symbol timestamp (m : Metrics) w w' :
  history_table w'
  = TinyDB.insert (mkHistoryDoc (Some symbol) (Some timestamp) (Some m) None)
                  (history_table w) →
  forallb (earlier_than timestamp)
          (TinyDB.search (symbol_is symbol) (history_table w)) = true →
  get_asset_history symbol 1 w'
  = [mkHistoryDoc (Some symbol) (Some timestamp) (Some m) None].
Proof.
  intros Hh Hold. unfold get_asset_history. rewrite Hh, tinydb_search_insert.
  set (entry := mkHistoryDoc (Some symbol) (Some timestamp) (Some m) None).
  assert (symbol_is symbol entry = true) as ->
    by (by apply bool_decide_eq_true).
  rewrite forallb_app.
  assert (forallb (λ x, bool_decide (is_Some (h_timestamp x)))
            (TinyDB.search (symbol_is symbol) (history_table w)) = true) as ->.
  { apply forallb_forall. intros e He. eapply forallb_forall in Hold; [|exact He].
    apply bool_decide_eq_true. unfold earlier_than in Hold.
    by destruct (h_timestamp e). }
  simpl. unfold sorted_reverse. rewrite sorted_by_snoc_first; [done|].
  apply Forall_forall. intros e He. apply list_elem_of_In in He.
  eapply forallb_forall in Hold; [|exact He]. unfold earlier_than in Hold.
  unfold timestamp_key. simpl. destruct (h_timestamp e); [|done]. simpl.
  by apply string_ltb_leb.
Qed.

(** A snapshot taken at a clock reading strictly later than the
    timestamps of the entries already stored for the symbol has its
    effect. *)
Lemma save_asset_metadata_effect (symbol : string) (m : Metrics) (w : World) :
  forallb (earlier_than (now (clock w)))
          (TinyDB.search (symbol_is symbol) (history_table w)) = true →
  snapshot_effect symbol m (now (clock w))
                  (save_asset_metadata now symbol (metadata_of m) w).
Proof.
  intros Hold. split; [|split].
  - eexists. split; [apply save_asset_metadata_has_current|done].
  - intros c Hc Hsym.
    by apply save_asset_metadata_current_docs in Hc as [->|[? _]].
  - eapply get_asset_history_inserted; [apply save_asset_metadata_history|done].
Qed.
End snapshot_facts.

Lemma snapshot_effect_frame symbol m timestamp w w' :
  history_table w' = history_table w →
  current_table w' = current_table w →
  snapshot_effect symbol m timestamp w → snapshot_effect symbol m timestamp w'.
Proof.
  intros Hh Hc. unfold snapshot_effect, get_assets_with_metadata, get_asset_history.
  by rewrite Hh, Hc.
Qed.

(** Why the clock reading has to be strictly later: of two entries with
    the same timestamp, the descending stable sort puts the one stored
    first in front, and [get_asset_history symbol 1] returns it. *)
Example get_asset_history_same_timestamp :
  let stopped (_ : nat) := "2024-01-01T00:00:00" in
  let w1 := save_asset_metadata stopped "TSLA" (metadata_of (mkMetrics 100 1.5 98))
                                fresh_store in
  let w2 := save_asset_metadata stopped "TSLA" (metadata_of (mkMetrics 101 1 99)) w1 in
  get_asset_history "TSLA" 1 w2
  = [mkHistoryDoc (Some "TSLA") (Some "2024-01-01T00:00:00")
                  (Some (mkMetrics 100 1.5 98)) None].
Proof. reflexivity. Qed.

(** ** The orchestrators *)

Section orchestrator_facts.
Variable now : nat → string.
Variable ticker_has_data : string → bool.
Variable ticker_metrics : string → option Metrics.

Lemma save_asset_metadata_clock symbol metadata w :
  clock (save_asset_metadata now symbol metadata w) = S (clock w).
Proof.
  unfold save_asset_metadata.
  destruct (md_latest_price metadata), (md_change_percent_24h metadata),
    (md_average_price_7d metadata); try done.
  simpl. by destruct (TinyDB.search _ _).
Qed.

Lemma fetch_and_save_asset_result symbol w :
  (fetch_and_save_asset now ticker_metrics symbol w).1
  = (λ m, mkAsset symbol (Some (latest_price m)) (Some (change_percent_24h m))
                  (Some (average_price_7d m)) (Some (now (S (clock w)))))
    <$> ticker_metrics symbol.
Proof.
  unfold fetch_and_save_asset, fetch_financial_data.
  destruct (ticker_metrics symbol) as [m|]; simpl; [|done].
  by rewrite save_asset_metadata_clock.
Qed.

Lemma gather_fetch_and_save_asset symbols w :
  Forall2 (λ symbol r,
             ∃ timestamp,
               r = (λ m, mkAsset symbol (Some (latest_price m))
                                 (Some (change_percent_24h m))
                                 (Some (average_price_7d m)) (Some timestamp))
                   <$> ticker_metrics symbol)
          symbols (gather (fetch_and_save_asset now ticker_metrics <$> symbols) w).1.
Proof.
  revert w. induction symbols as [|symbol symbols IH]; intros w; [constructor|].
  rewrite fmap_cons. cbn [gather].
  pose proof (fetch_and_save_asset_result symbol w) as Hr.
  destruct (fetch_and_save_asset now ticker_metrics symbol w) as [r w1].
  specialize (IH w1).
  destruct (gather (fetch_and_save_asset now ticker_metrics <$> symbols) w1) as [rs w2].
  simpl in *. constructor; [|done]. eexists. exact Hr.
Qed.

(** C5 (order preservation). [add_assets_service] returns one record
    per input symbol, in input order: the fetched metrics where the
    fetch succeeded, and the placeholder carrying only the symbol where
    it failed. *)
Theorem add_assets_service_order (symbols : list string) (w : World) :
  Forall2 (is_result_of ticker_metrics) symbols
          (add_assets_service now ticker_metrics symbols w).1.
Proof.
  unfold add_assets_service.
  pose proof (gather_fetch_and_save_asset symbols w) as Hg.
  destruct (gather (fetch_and_save_asset now ticker_metrics <$> symbols) w)
    as [results w1]. simpl in *.
  induction Hg as [|symbol r symbols results [timestamp Hr] _ IH]; simpl;
    constructor; [|done].
  unfold is_result_of. subst r.
  destruct (ticker_metrics symbol) as [m|]; simpl; [|done].
  repeat split; eauto.
Qed.
End orchestrator_facts.

(** The example of C5: the fetch of the second of three symbols fails. *)
Example add_assets_service_example :
  (add_assets_service sample_clock sample_ticker_metrics
                      ["AAPL"; "bad"; "GOOG"] fresh_store).1
  = [mkAsset "AAPL" (Some 100%float) (Some 1.5%float) (Some 98%float)
             (Some "2024-01-01T00:00:01");
     mkAsset "bad" None None None None;
     mkAsset "GOOG" (Some 100%float) (Some 1.5%float) (Some 98%float)
             (Some "2024-01-01T00:00:03")].
Proof. reflexivity. Qed.

(** ** Ingestion *)

Section ingest_facts.
Variable now : nat → string.
Variable ticker_has_data : string → bool.
Variable ticker_metrics : string → option Metrics.
Variable all_symbols : list string.

Lemma add_symbol_with_metadata_result symbol metadata w :
  (add_symbol_with_metadata now ticker_has_data symbol metadata w).1
  = match registration_failure ticker_has_data symbol with
    | Some msg => (false, msg)
    | None => (true, "Successfully added " +:+ symbol +:+ " with metadata")
    end.
Proof.
  unfold add_symbol_with_metadata, registration_failure, is_valid_symbol.
  destruct (negb (validate_symbol_format symbol)); [done|].
  destruct (negb (ticker_has_data symbol)); [done|].
  by destruct (get_symbols w).
Qed.

Lemma ingest_step_appends acc w symbol :
  let acc' := (ingest_step now ticker_has_data ticker_metrics all_symbols
                           (acc, w) symbol).1 in
  a_symbol <$> acc_results acc'
    = (a_symbol <$> acc_results acc) ++ ingest_updated ticker_metrics symbol ∧
  acc_success acc'
    = acc_success acc ++ ingest_success ticker_has_data ticker_metrics all_symbols symbol ∧
  acc_errors acc'
    = acc_errors acc ++ ingest_errors ticker_has_data ticker_metrics all_symbols symbol.
Proof.
  unfold ingest_step, ingest_updated, ingest_success, ingest_errors, fetched.
  pose proof (fetch_and_save_asset_result now ticker_metrics symbol w) as Hr.
  destruct (fetch_and_save_asset now ticker_metrics symbol w) as [r w1].
  simpl in Hr. subst r.
  destruct (ticker_metrics symbol) as [m|]; simpl.
  - destruct (bool_decide (symbol ∈ all_symbols)); simpl.
    + by rewrite fmap_app, !app_nil_r.
    + match goal with
      | |- context [add_symbol_with_metadata ?a ?b ?c ?d ?e] =>
          pose proof (add_symbol_with_metadata_result c d e) as Hadd;
          destruct (add_symbol_with_metadata a b c d e) as [[success msg] w2]
      end.
      simpl in Hadd.
      destruct (registration_failure ticker_has_data symbol) as [msg'|];
        inversion Hadd; subst; simpl; by rewrite fmap_app, ?app_nil_r.
  - by rewrite !app_nil_r.
Qed.

Lemma ingest_loop update_symbols acc w :
  let acc' := (foldl (ingest_step now ticker_has_data ticker_metrics all_symbols)
                     (acc, w) update_symbols).1 in
  a_symbol <$> acc_results acc'
    = (a_symbol <$> acc_results acc) ++ update_symbols ≫= ingest_updated ticker_metrics ∧
  acc_success acc'
    = acc_success acc
      ++ update_symbols ≫= ingest_success ticker_has_data ticker_metrics all_symbols ∧
  acc_errors acc'
    = acc_errors acc
      ++ update_symbols ≫= ingest_errors ticker_has_data ticker_metrics all_symbols.
Proof.
  revert acc w. induction update_symbols as [|symbol rest IH]; intros acc w.
  { simpl. by rewrite !app_nil_r. }
  cbn [foldl].
  pose proof (ingest_step_appends acc w symbol) as (Hr & Hs & He).
  destruct (ingest_step now ticker_has_data ticker_metrics all_symbols (acc, w) symbol)
    as [acc1 w1]. simpl in Hr, Hs, He.
  destruct (IH acc1 w1) as (Hr' & Hs' & He').
  rewrite !bind_cons, Hr', Hs', He', Hr, Hs, He. by rewrite <- !(assoc_L (++)).
Qed.

Lemma bind_ingest_updated update_symbols :
  update_symbols ≫= ingest_updated ticker_metrics
  = List.filter (fetched ticker_metrics) update_symbols.
Proof.
  induction update_symbols as [|symbol rest IH]; [done|].
  rewrite bind_cons, IH. unfold ingest_updated. simpl.
  by destruct (fetched ticker_metrics symbol).
Qed.
End ingest_facts.

Section ingest_results.
Variable now : nat → string.
Variable ticker_has_data : string → bool.
Variable ticker_metrics : string → option Metrics.

(** The loop of [ingest_assets_service] computes, symbol by symbol, the
    concatenation of what each symbol contributes. *)
Lemma ingest_assets_service_result update_symbols w :
  let all_symbols := (get_symbols w).1 in
  (ingest_assets_service now ticker_has_data ticker_metrics update_symbols w).1
  = mkBatchResult
      ("Processed " +:+ pretty (length update_symbols) +:+ " symbols")
      (length (List.filter (fetched ticker_metrics) update_symbols))
      (update_symbols ≫= ingest_success ticker_has_data ticker_metrics all_symbols)
      (update_symbols ≫= ingest_errors ticker_has_data ticker_metrics all_symbols)
      (List.filter (fetched ticker_metrics) update_symbols).
Proof.
  unfold ingest_assets_service.
  destruct (get_symbols w) as [all_symbols w0]. simpl.
  pose proof (ingest_loop now ticker_has_data ticker_metrics all_symbols
                update_symbols (mkIngestAcc [] [] []) w0) as (Hr & Hs & He).
  destruct (foldl _ _ update_symbols) as [acc w1]. simpl in *.
  rewrite bind_ingest_updated in Hr.
  f_equal; try done. by rewrite <- (length_fmap a_symbol), Hr.
Qed.

(** C6 (partial batch success). For every input list and every store:
    the report counts the whole input in its message, lists the symbols
    whose fetch returned data, in input order, as updated, and counts
    them; a symbol whose fetch returned nothing is reported in
    [error_messages] with ["Could not fetch data for <symbol>"] and is
    not among the updated symbols; every success message is about a
    symbol whose fetch returned data; and every error message is either
    that of a failed fetch or the refusal of a registration. The call
    returns a report for every input: the model is a total function. *)
Theorem ingest_assets_service_partial_success (update_symbols : list string) (w : World) :
  let r := (ingest_assets_service now ticker_has_data ticker_metrics
                                  update_symbols w).1 in
  message r = "Processed " +:+ pretty (length update_symbols) +:+ " symbols" ∧
  updated_assets r = List.filter (fetched ticker_metrics) update_symbols ∧
  updated_count r = length (List.filter (fetched ticker_metrics) update_symbols) ∧
  (∀ symbol, symbol ∈ update_symbols → ticker_metrics symbol = None →
     ("Could not fetch data for " +:+ symbol) ∈ error_messages r ∧
     symbol ∉ updated_assets r) ∧
  (∀ msg, msg ∈ success_messages r →
     ∃ symbol, symbol ∈ update_symbols ∧ is_Some (ticker_metrics symbol) ∧
       (msg = "Updated " +:+ symbol ∨
        msg = "Successfully added " +:+ symbol +:+ " with metadata")) ∧
  (∀ msg, msg ∈ error_messages r →
     ∃ symbol, symbol ∈ update_symbols ∧
       ((ticker_metrics symbol = None ∧
         msg = "Could not fetch data for " +:+ symbol) ∨
        (is_Some (ticker_metrics symbol) ∧
         registration_failure ticker_has_data symbol = Some msg))).
Proof.
  intros r. subst r. rewrite ingest_assets_service_result. simpl.
  split; [done|]. split; [done|]. split; [done|]. split; [|split].
  - intros symbol Hin Hnone. split.
    + apply list_elem_of_bind. exists symbol. split; [|done].
      unfold ingest_errors, fetched. rewrite Hnone.
      rewrite bool_decide_eq_false_2 by (by intros [? ?]). apply list_elem_of_here.
    + intros [_ Hf]%elem_of_filter. unfold fetched in Hf.
      apply bool_decide_eq_true in Hf as [? Hf]. congruence.
  - intros msg (symbol & Hmsg & Hin)%list_elem_of_bind.
    exists symbol. unfold ingest_success, fetched in Hmsg.
    destruct (bool_decide (is_Some (ticker_metrics symbol))) eqn:Hf;
      [|by apply elem_of_nil in Hmsg].
    apply bool_decide_eq_true in Hf. split; [done|]. split; [done|].
    destruct (bool_decide (symbol ∈ (get_symbols w).1)).
    + apply list_elem_of_singleton in Hmsg. by left.
    + destruct (registration_failure ticker_has_data symbol);
        [by apply elem_of_nil in Hmsg|].
      apply list_elem_of_singleton in Hmsg. by right.
  - intros msg (symbol & Hmsg & Hin)%list_elem_of_bind.
    exists symbol. split; [done|]. unfold ingest_errors, fetched in Hmsg.
    destruct (bool_decide (is_Some (ticker_metrics symbol))) eqn:Hf.
    + apply bool_decide_eq_true in Hf. right. split; [done|].
      destruct (bool_decide (symbol ∈ (get_symbols w).1));
        [by apply elem_of_nil in Hmsg|].
      destruct (registration_failure ticker_has_data symbol) as [msg'|]; simpl in Hmsg;
        [|by apply elem_of_nil in Hmsg].
      by apply list_elem_of_singleton in Hmsg as ->.
    + apply bool_decide_eq_false in Hf. left.
      apply list_elem_of_singleton in Hmsg. split; [|done].
      destruct (ticker_metrics symbol); [|done]. by destruct Hf.
Qed.

End ingest_results.

(** The example of C6: the fetch of the second of three symbols returns
    nothing. *)
Example ingest_assets_service_example :
  (ingest_assets_service sample_clock sample_has_data sample_ticker_metrics
                         ["AAPL"; "bad"; "GOOG"] fresh_store).1
  = mkBatchResult "Processed 3 symbols" 2
      ["Successfully added AAPL with metadata";
       "Successfully added GOOG with metadata"]
      ["Could not fetch data for bad"]
      ["AAPL"; "GOOG"].
Proof. reflexivity. Qed.

(** C6, at the input of the example: the symbol whose fetch returned
    nothing. *)
Lemma ingest_assets_service_partial_success_witness :
  let r := (ingest_assets_service sample_clock sample_has_data sample_ticker_metrics
                                  ["AAPL"; "bad"; "GOOG"] fresh_store).1 in
  "Could not fetch data for bad" ∈ error_messages r ∧ "bad" ∉ updated_assets r.
Proof.
  apply (proj1 (proj2 (proj2 (proj2
           (ingest_assets_service_partial_success sample_clock sample_has_data
              sample_ticker_metrics ["AAPL"; "bad"; "GOOG"] fresh_store)))) "bad").
  - apply list_elem_of_further, list_elem_of_here.
  - reflexivity.
Defined.



(** ** Registration *)

Lemma filter_zip_fmap {A} (f : A → bool) (l : list A) :
  (List.filter snd (zip l (f <$> l))).*1 = List.filter f l.
Proof.
  induction l as [|x l IH]; simpl; [done|].
  destruct (f x); simpl; [f_equal|]; exact IH.
Qed.

Lemma filter_filter_nil {A} (f g : A → bool) (l : list A) :
  (∀ x, x ∈ l → f x && g x = false) → List.filter g (List.filter f l) = [].
Proof.
  induction l as [|x l IH]; simpl; intros H; [done|].
  assert (List.filter g (List.filter f l) = []) as IH'.
  { apply IH. intros y Hy. apply H. by apply list_elem_of_further. }
  specialize (H x (list_elem_of_here _ _)).
  destruct (f x); simpl; [|done]. simpl in H. by rewrite H.
Qed.

Section registration_facts.
Variable ticker_has_data : string → bool.
Variable list_of_set : list string → list string.

(** C7 (registration failure). When no input symbol passes both the
    format check and the existence check, [save_symbols] returns the
    empty list and the store is exactly as before. *)
Theorem save_symbols_nothing_valid (symbols : list string) (w : World) :
  (∀ s, s ∈ symbols →
        validate_symbol_format s && is_valid_symbol ticker_has_data s = false) →
  save_symbols ticker_has_data list_of_set symbols w = ([], w).
Proof.
  intros Hnone. unfold save_symbols.
  pose proof (filter_filter_nil validate_symbol_format
                (is_valid_symbol ticker_has_data) symbols Hnone) as Hnil.
  destruct (List.filter validate_symbol_format symbols) as [|s0 rest] eqn:Hfmt;
    [done|].
  cbv zeta. by rewrite filter_zip_fmap, Hnil.
Qed.

(** C8, as the code has it. On a fresh store, registering
    [["AAPL"; "bad"; "GOOG"]] when the provider knows AAPL and GOOG
    tracks exactly the three default symbols, which the first read of
    the empty symbols table seeds, together with AAPL and GOOG; the
    list is what a later [get_symbols] returns. *)
Theorem save_symbols_fresh_store :
  (∀ l x, x ∈ list_of_set l ↔ x ∈ l) →
  ticker_has_data "AAPL" = true →
  ticker_has_data "GOOG" = true →
  let r := save_symbols ticker_has_data list_of_set ["AAPL"; "bad"; "GOOG"]
                        fresh_store in
  (∀ x, x ∈ r.1 ↔ x ∈ ["BTC-USD"; "ETH-USD"; "TSLA"; "AAPL"; "GOOG"]) ∧
  (get_symbols r.2).1 = r.1 ∧
  TinyDB.all (symbols_table r.2) = [r.1].
Proof.
  intros Hset Haapl Hgoog r. subst r. unfold save_symbols.
  change (List.filter validate_symbol_format ["AAPL"; "bad"; "GOOG"])
    with ["AAPL"; "GOOG"].
  cbv zeta. rewrite filter_zip_fmap. unfold is_valid_symbol. simpl.
  rewrite Haapl, Hgoog. simpl. split; [|done].
  intros x. apply Hset.
Qed.
End registration_facts.

(** C7, at a concrete input: neither symbol passes the format check. *)
Lemma save_symbols_nothing_valid_witness :
  save_symbols sample_has_data remove_dups ["bad"; "1234"] fresh_store
  = ([], fresh_store).
Proof.
  apply (save_symbols_nothing_valid sample_has_data remove_dups
           ["bad"; "1234"] fresh_store).
  intros s Hs.
  repeat (apply elem_of_cons in Hs as [->|Hs]; [reflexivity|]).
  by apply elem_of_nil in Hs.
Defined.

(** C8 as worded fails: after the call the tracked set also holds the
    three defaults. *)
Lemma save_symbols_fresh_store_seeds_defaults :
  let w := (save_symbols sample_has_data remove_dups ["AAPL"; "bad"; "GOOG"]
                         fresh_store).2 in
  TinyDB.all (symbols_table fresh_store) = [] ∧
  (get_symbols w).1 = ["BTC-USD"; "ETH-USD"; "TSLA"; "AAPL"; "GOOG"] ∧
  ¬ (∀ x, x ∈ (get_symbols w).1 ↔ x ∈ ["AAPL"; "GOOG"]).
Proof.
  split; [reflexivity|]. split; [reflexivity|].
  intros H. specialize (H "TSLA"). destruct H as [H _].
  assert ("TSLA" ∈ ["AAPL"; "GOOG"]) as Hin.
  { apply H. vm_compute. do 2 apply list_elem_of_further. apply list_elem_of_here. }
  repeat (apply elem_of_cons in Hin as [Hin|Hin]; [discriminate Hin|]).
  by apply elem_of_nil in Hin.
Qed.

(** C8 as amended, with the sample provider. *)
Lemma save_symbols_fresh_store_witness :
  let r := save_symbols sample_has_data remove_dups ["AAPL"; "bad"; "GOOG"]
                        fresh_store in
  (∀ x, x ∈ r.1 ↔ x ∈ ["BTC-USD"; "ETH-USD"; "TSLA"; "AAPL"; "GOOG"]) ∧
  (get_symbols r.2).1 = r.1 ∧
  TinyDB.all (symbols_table r.2) = [r.1].
Proof.
  apply (save_symbols_fresh_store sample_has_data remove_dups).
  - intros l x. apply elem_of_remove_dups.
  - reflexivity.
  - reflexivity.
Defined.

(** ** Timestamp coherence *)

Lemma string_leb_refl (a : string) : String.leb a a = true.
Proof. by destruct (String.leb_total a a). Qed.

(** The entry [get_asset_history symbol 1] returns is an entry of the
    symbol with the largest timestamp. *)
Lemma get_asset_history_newest symbol w e :
  get_asset_history symbol 1 w = [e] →
  e ∈ TinyDB.search (symbol_is symbol) (history_table w) ∧
  Forall (λ y, String.leb (timestamp_key y) (timestamp_key e) = true)
         (TinyDB.search (symbol_is symbol) (history_table w)).
Proof.
  unfold get_asset_history. destruct (forallb _ _); [|done].
  rewrite slice_to_take by lia. change (Z.to_nat 1) with 1.
  set (results := TinyDB.search (symbol_is symbol) (history_table w)).
  set (le := λ x y : HistoryDoc, String.leb (timestamp_key y) (timestamp_key x)).
  pose proof (sorted_by_StronglySorted le
    (λ x y z Hxy Hyz, string_leb_trans _ _ _ Hyz Hxy)
    (λ x y H, string_leb_total _ _ H) results) as Hsorted.
  pose proof (sorted_by_Permutation le results) as Hperm.
  unfold sorted_reverse. fold le.
  destruct (sorted_by le results) as [|e' l'] eqn:Hs; [done|].
  simpl. rewrite take_0. intros [= ->].
  apply StronglySorted_inv in Hsorted as [_ Hall]. split.
  - rewrite <- Hperm. apply list_elem_of_here.
  - apply Forall_forall. intros y Hy. rewrite <- Hperm in Hy.
    apply elem_of_cons in Hy as [->|Hy]; [apply string_leb_refl|].
    eapply Forall_forall in Hall; [exact Hall|done].
Qed.

Lemma save_asset_metadata_cases now symbol metadata w :
  (∃ m, metadata = metadata_of m) ∨
  save_asset_metadata now symbol metadata w = tick w.
Proof.
  unfold save_asset_metadata.
  destruct metadata as [[lp|] [cp|] [ap|]]; simpl; try by right.
  left. by exists (mkMetrics lp cp ap).
Qed.

Lemma get_symbols_frame w :
  history_table (get_symbols w).2 = history_table w ∧
  current_table (get_symbols w).2 = current_table w ∧
  clock (get_symbols w).2 = clock w.
Proof. unfold get_symbols. by destruct (TinyDB.search _ _). Qed.

Lemma save_symbols_frame ticker_has_data list_of_set symbols w :
  let w' := (save_symbols ticker_has_data list_of_set symbols w).2 in
  history_table w' = history_table w ∧
  current_table w' = current_table w ∧
  clock w' = clock w.
Proof.
  unfold save_symbols.
  destruct (List.filter validate_symbol_format symbols); [done|]. cbv zeta.
  destruct ((List.filter snd _).*1); [done|].
  pose proof (get_symbols_frame w) as Hf.
  by destruct (get_symbols w).
Qed.

Section history_facts.
Variable now : nat → string.

Lemma history_inv_fresh : history_inv now fresh_store.
Proof. constructor. Qed.

(** The invariant reads the history table and the clock only, and
    survives the clock moving on. *)
Lemma history_inv_frame w w' :
  history_table w' = history_table w →
  clock w ≤ clock w' →
  history_inv now w → history_inv now w'.
Proof.
  intros Hh Hclock Hall. unfold history_inv. rewrite Hh.
  eapply Forall_impl; [exact Hall|].
  intros e [Hid (i & Hi & Hts)]. split; [done|]. exists i. split; [lia|done].
Qed.

Lemma history_inv_save symbol metadata w :
  history_inv now w → history_inv now (save_asset_metadata now symbol metadata w).
Proof.
  intros Hall.
  destruct (save_asset_metadata_cases now symbol metadata w) as [[m ->]| ->].
  - unfold history_inv.
    rewrite save_asset_metadata_clock, save_asset_metadata_history, tinydb_all_insert.
    apply Forall_app. split.
    + eapply Forall_impl; [exact Hall|].
      intros e [Hid (i & Hi & Hts)]. split; [done|]. exists i. split; [lia|done].
    + repeat constructor. exists (clock w). split; [lia|done].
  - apply (history_inv_frame w); simpl; [done|lia|done].
Qed.

(** On a history table written by [save_asset_metadata] the trim
    removes nothing, whatever the symbol and the bound. *)
Lemma trim_asset_history_written symbol keep_last w :
  history_inv now w →
  trim_asset_history symbol keep_last (history_table w) = history_table w.
Proof.
  intros Hall. apply trim_asset_history_no_doc_id.
  apply Forall_forall. intros e [He _]%elem_of_filter.
  eapply Forall_forall in Hall; [|exact He]. by destruct Hall.
Qed.

Lemma history_inv_add_symbol ticker_has_data symbol metadata w :
  history_inv now w →
  history_inv now (add_symbol_with_metadata now ticker_has_data symbol metadata w).2.
Proof.
  intros Hinv. unfold add_symbol_with_metadata.
  destruct (negb (validate_symbol_format symbol)); [done|].
  destruct (negb (is_valid_symbol ticker_has_data symbol)); [done|].
  destruct (get_symbols_frame w) as (Hh & Hc & Hclock).
  destruct (get_symbols w) as [existing_symbols w0]. simpl in *.
  apply history_inv_save.
  destruct (bool_decide (symbol ∈ existing_symbols)).
  - apply (history_inv_frame w); [done|lia|done].
  - apply (history_inv_frame w); simpl; [done|lia|done].
Qed.

Lemma history_inv_step ticker_has_data list_of_set w w' :
  store_step now ticker_has_data list_of_set w w' →
  history_inv now w → history_inv now w'.
Proof.
  intros Hstep Hinv.
  destruct Hstep as [symbol metadata w|symbol keep_last w|w|w|symbols w
                    |symbol metadata w|w].
  - by apply history_inv_save.
  - apply (history_inv_frame w); simpl; [|done..].
    by apply trim_asset_history_written.
  - constructor.
  - destruct (get_symbols_frame w) as (Hh & Hc & Hclock).
    apply (history_inv_frame w); [done|lia|done].
  - destruct (save_symbols_frame ticker_has_data list_of_set symbols w)
      as (Hh & Hc & Hclock).
    apply (history_inv_frame w); [done|lia|done].
  - by apply history_inv_add_symbol.
  - apply (history_inv_frame w); simpl; [done|lia|done].
Qed.

Lemma reachable_history_inv ticker_has_data list_of_set w :
  reachable now ticker_has_data list_of_set w → history_inv now w.
Proof.
  induction 1 as [|w w' _ IH Hstep]; [apply history_inv_fresh|].
  by eapply history_inv_step.
Qed.

(** In every store the program can reach, [trim_asset_history] leaves
    the history table as it is. *)
Lemma trim_asset_history_reachable ticker_has_data list_of_set symbol keep_last w :
  reachable now ticker_has_data list_of_set w →
  trim_asset_history symbol keep_last (history_table w) = history_table w.
Proof. intros Hw. eapply trim_asset_history_written, reachable_history_inv, Hw. Qed.
End history_facts.

(** C4 (snapshot effect), with the condition it needs. On every store
    the program can reach, when the clock reading of the write is
    strictly later than the earlier readings: after [save_asset_metadata symbol m] the store has a
    current record for the symbol, every current record of the symbol
    carries the three metrics of [m], and [get_asset_history symbol 1]
    returns the entry just written, whose metadata is [m]; and the same
    holds after [fetch_and_save_asset symbol] when the fetch returns
    [m], since the trim that follows the write removes nothing. *)
Theorem save_asset_metadata_snapshot
    (now : nat → string) (ticker_has_data : string → bool)
    (ticker_metrics : string → option Metrics)
    (list_of_set : list string → list string)
    (symbol : string) (m : Metrics) (w : World) :
  reachable now ticker_has_data list_of_set w →
  (∀ i, i < clock w → String.ltb (now i) (now (clock w)) = true) →
  snapshot_effect symbol m (now (clock w))
                  (save_asset_metadata now symbol (metadata_of m) w) ∧
  (ticker_metrics symbol = Some m →
   snapshot_effect symbol m (now (clock w))
                   (fetch_and_save_asset now ticker_metrics symbol w).2).
Proof.
  intros Hw Hclock. apply reachable_history_inv in Hw.
  assert (snapshot_effect symbol m (now (clock w))
            (save_asset_metadata now symbol (metadata_of m) w)) as Heffect.
  { apply save_asset_metadata_effect.
    apply forallb_forall. intros e [He _]%list_elem_of_In%elem_of_filter.
    eapply Forall_forall in Hw; [|exact He].
    destruct Hw as [_ (i & Hi & Hts)]. unfold earlier_than. rewrite Hts.
    by apply Hclock. }
  split; [done|]. intros Hfetch.
  pose proof (history_inv_save now symbol (metadata_of m) w Hw) as Hw1.
  unfold fetch_and_save_asset, fetch_financial_data. rewrite Hfetch. simpl.
  eapply snapshot_effect_frame; [| |exact Heffect]; simpl; [|done].
  by apply (trim_asset_history_written now).
Qed.

(** C4 as stated, without a condition on the clock, fails. The clock
    is set back between two snapshots of a symbol: the store before the
    second write is reachable, the write goes through, and the current
    record of the symbol carries the new metrics, but
    [get_asset_history symbol 1] returns the entry of the first
    snapshot, whose metadata are the old metrics, since the newest
    entry is chosen by timestamp. *)
Lemma save_asset_metadata_snapshot_clock_set_back :
  let m := mkMetrics 101 1 99 in
  reachable clock_set_back sample_has_data remove_dups set_back_first ∧
  set_back_second = save_asset_metadata clock_set_back "TSLA" (metadata_of m)
                                        set_back_first ∧
  get_assets_with_metadata set_back_second
  = [mkCurrentDoc "TSLA" 101 1 99 "2024-11-03T01:00:00"] ∧
  get_asset_history "TSLA" 1 set_back_second
  = [mkHistoryDoc (Some "TSLA") (Some "2024-11-03T01:30:00")
                  (Some (mkMetrics 100 1.5 98)) None] ∧
  (∀ e, e ∈ get_asset_history "TSLA" 1 set_back_second →
        h_metadata e ≠ Some m) ∧
  ¬ snapshot_effect "TSLA" m (clock_set_back (clock set_back_first))
                    set_back_second.
Proof.
  assert (get_asset_history "TSLA" 1 set_back_second
          = [mkHistoryDoc (Some "TSLA") (Some "2024-11-03T01:30:00")
                          (Some (mkMetrics 100 1.5 98)) None]) as Hnewest
    by reflexivity.
  intros m. split; [|split; [|split; [|split; [|split]]]].
  - eapply reachable_step; [apply reachable_fresh|apply step_save].
  - reflexivity.
  - reflexivity.
  - exact Hnewest.
  - intros e He. rewrite Hnewest in He. apply list_elem_of_singleton in He.
    subst e. simpl. intros Hsame.
    pose proof (f_equal (λ o : option Metrics,
                           match o with
                           | Some x => PrimFloat.eqb (latest_price x) 101
                           | None => false
                           end) Hsame) as Heqb.
    vm_compute in Heqb. discriminate Heqb.
  - intros (_ & _ & Hhistory). rewrite Hnewest in Hhistory. discriminate Hhistory.
Qed.

(** C4, at a concrete store: the third snapshot of a symbol. *)
Lemma save_asset_metadata_snapshot_witness :
  get_asset_history "TSLA" 1
    (save_asset_metadata sample_clock "TSLA" (metadata_of sample_metrics)
                         (after_snapshots 2 "TSLA"))
  = [mkHistoryDoc (Some "TSLA") (Some "2024-01-01T00:00:02")
                  (Some sample_metrics) None].
Proof.
  refine (proj2 (proj2 (proj1
    (save_asset_metadata_snapshot sample_clock sample_has_data sample_ticker_metrics
       remove_dups "TSLA" sample_metrics (after_snapshots 2 "TSLA") _ _)))).
  - change (after_snapshots 2 "TSLA")
      with (save_asset_metadata sample_clock "TSLA" (metadata_of sample_metrics)
              (save_asset_metadata sample_clock "TSLA" (metadata_of sample_metrics)
                 fresh_store)).
    eapply reachable_step; [|apply step_save].
    eapply reachable_step; [|apply step_save].
    apply reachable_fresh.
  - intros i Hi. change (clock (after_snapshots 2 "TSLA")) with 2 in *.
    destruct i as [|[|i]]; [reflexivity|reflexivity|lia].
Defined.

Section coherence_facts.
Variable now : nat → string.
Hypothesis now_monotone : ∀ i j, i ≤ j → String.leb (now i) (now j) = true.

Lemma coherent_fresh : coherent fresh_store.
Proof. intros c e Hc. by apply elem_of_nil in Hc. Qed.

Lemma coherent_frame w w' :
  history_table w' = history_table w →
  current_table w' = current_table w →
  coherent w → coherent w'.
Proof.
  intros Hh Hc Hcoh c e. unfold get_assets_with_metadata, get_asset_history.
  rewrite Hh, Hc. apply Hcoh.
Qed.

Lemma coherent_save symbol metadata w :
  history_inv now w → coherent w →
  coherent (save_asset_metadata now symbol metadata w).
Proof.
  intros Hall Hcoh.
  pose proof (history_inv_save now symbol metadata w Hall) as Hall'.
  destruct (save_asset_metadata_cases now symbol metadata w) as [[m ->]|Htick].
  2: { rewrite Htick. by apply (coherent_frame w). }
  intros c e Hc Hnewest. unfold get_assets_with_metadata in Hc.
  apply save_asset_metadata_current_docs in Hc as [->|[Hsym Hc]]; simpl in *.
  - apply get_asset_history_newest in Hnewest as [He Hmax].
    apply elem_of_filter in He as [He _].
    eapply Forall_forall in Hall'; [|exact He].
    destruct Hall' as [_ (i & Hi & Hts)].
    rewrite save_asset_metadata_clock in Hi.
    rewrite save_asset_metadata_history, tinydb_search_insert in Hmax.
    apply Forall_app in Hmax as [_ Hmax].
    assert (symbol_is symbol
              (mkHistoryDoc (Some symbol) (Some (now (clock w))) (Some m) None)
            = true) as Hnew by (by apply bool_decide_eq_true).
    rewrite Hnew in Hmax. apply Forall_inv in Hmax.
    unfold timestamp_key in Hmax. rewrite Hts in Hmax. simpl in Hmax.
    rewrite Hts. f_equal.
    apply String.leb_antisym; [|done]. apply now_monotone. lia.
  - apply Hcoh; [done|]. rewrite <- Hnewest.
    unfold get_asset_history.
    rewrite save_asset_metadata_history, tinydb_search_insert.
    assert (symbol_is (c_symbol c)
              (mkHistoryDoc (Some symbol) (Some (now (clock w))) (Some m) None)
            = false) as -> by (apply bool_decide_eq_false; simpl; congruence).
    by rewrite app_nil_r.
Qed.

Lemma coherent_truncate w : coherent (truncate_db w).
Proof.
  intros c e _ Hnewest.
  by apply get_asset_history_newest in Hnewest as [?%elem_of_nil _].
Qed.

Lemma coherent_add_symbol ticker_has_data symbol metadata w :
  history_inv now w → coherent w →
  coherent (add_symbol_with_metadata now ticker_has_data symbol metadata w).2.
Proof.
  intros Hinv Hcoh. unfold add_symbol_with_metadata.
  destruct (negb (validate_symbol_format symbol)); [done|].
  destruct (negb (is_valid_symbol ticker_has_data symbol)); [done|].
  destruct (get_symbols_frame w) as (Hh & Hc & Hclock).
  destruct (get_symbols w) as [existing_symbols w0]. simpl in *.
  destruct (bool_decide (symbol ∈ existing_symbols)).
  - apply coherent_save.
    + apply (history_inv_frame now w); [done|lia|done].
    + by apply (coherent_frame w).
  - apply coherent_save.
    + apply (history_inv_frame now w); simpl; [done|lia|done].
    + by apply (coherent_frame w).
Qed.

Lemma coherent_step ticker_has_data list_of_set w w' :
  store_step now ticker_has_data list_of_set w w' →
  history_inv now w → coherent w → coherent w'.
Proof.
  intros Hstep Hinv Hcoh.
  destruct Hstep as [symbol metadata w|symbol keep_last w|w|w|symbols w
                    |symbol metadata w|w].
  - by apply coherent_save.
  - apply (coherent_frame w); simpl; [|done..].
    by apply (trim_asset_history_written now).
  - apply coherent_truncate.
  - destruct (get_symbols_frame w) as (Hh & Hc & Hclock).
    by apply (coherent_frame w).
  - destruct (save_symbols_frame ticker_has_data list_of_set symbols w)
      as (Hh & Hc & Hclock).
    by apply (coherent_frame w).
  - by apply coherent_add_symbol.
  - by apply (coherent_frame w).
Qed.

Lemma reachable_coherent ticker_has_data list_of_set w :
  reachable now ticker_has_data list_of_set w → coherent w.
Proof.
  induction 1 as [|w w' Hw IH Hstep]; [apply coherent_fresh|].
  eapply coherent_step; [exact Hstep| |exact IH].
  by eapply reachable_history_inv.
Qed.

(** C10 (timestamp coherence), with the condition it needs. With a
    clock that never reads earlier than it did before: a snapshot stamps the history entry it appends
    and the current records of the symbol with one and the same clock
    reading; and in every store reached from the fresh one by snapshot
    writes, trims, resets, registrations and clock readings, the
    current record of a symbol carries the timestamp of the entry
    [get_asset_history symbol 1] returns. The reset here is
    [truncate_db] as it is written: it empties the history and symbols
    tables and leaves the current table, and the invariant survives it
    because a symbol without history is exempt. *)
Theorem snapshot_timestamps_coherent ticker_has_data list_of_set :
  (∀ symbol m w,
     let w' := save_asset_metadata now symbol (metadata_of m) w in
     last (TinyDB.all (history_table w'))
     = Some (mkHistoryDoc (Some symbol) (Some (now (clock w))) (Some m) None) ∧
     ∀ c, c ∈ get_assets_with_metadata w' → c_symbol c = symbol →
          c_last_updated c = now (clock w)) ∧
  (∀ w, reachable now ticker_has_data list_of_set w → coherent w).
Proof.
  split.
  - intros symbol m w w'. subst w'. split.
    + by rewrite save_asset_metadata_history, tinydb_all_insert, last_snoc.
    + intros c Hc Hsym.
      by apply save_asset_metadata_current_docs in Hc as [->|[? _]].
  - apply reachable_coherent.
Qed.
End coherence_facts.

(** The orchestrators move the store by these steps only. *)
Section orchestrator_steps.
Variable now : nat → string.
Variable ticker_has_data : string → bool.
Variable ticker_metrics : string → option Metrics.
Variable list_of_set : list string → list string.

Lemma reachable_fetch_and_save_asset symbol w :
  reachable now ticker_has_data list_of_set w →
  reachable now ticker_has_data list_of_set
            (fetch_and_save_asset now ticker_metrics symbol w).2.
Proof.
  intros Hw. unfold fetch_and_save_asset.
  destruct (fetch_financial_data ticker_metrics symbol) as [data|]; [|done].
  simpl. eapply reachable_step; [|apply step_clock].
  eapply reachable_step; [|apply step_trim].
  eapply reachable_step; [exact Hw|apply step_save].
Qed.

Lemma reachable_gather symbols w :
  reachable now ticker_has_data list_of_set w →
  reachable now ticker_has_data list_of_set
            (gather (fetch_and_save_asset now ticker_metrics <$> symbols) w).2.
Proof.
  revert w. induction symbols as [|symbol symbols IH]; intros w Hw; [done|].
  rewrite fmap_cons. cbn [gather].
  pose proof (reachable_fetch_and_save_asset symbol w Hw) as H1.
  destruct (fetch_and_save_asset now ticker_metrics symbol w) as [r w1].
  specialize (IH w1 H1).
  by destruct (gather (fetch_and_save_asset now ticker_metrics <$> symbols) w1).
Qed.

Lemma reachable_add_assets_service symbols w :
  reachable now ticker_has_data list_of_set w →
  reachable now ticker_has_data list_of_set
            (add_assets_service now ticker_metrics symbols w).2.
Proof.
  intros Hw. unfold add_assets_service.
  pose proof (reachable_gather symbols w Hw) as Hg.
  by destruct (gather (fetch_and_save_asset now ticker_metrics <$> symbols) w).
Qed.

Lemma reachable_ingest_step all_symbols acc w symbol :
  reachable now ticker_has_data list_of_set w →
  reachable now ticker_has_data list_of_set
    (ingest_step now ticker_has_data ticker_metrics all_symbols (acc, w) symbol).2.
Proof.
  intros Hw. unfold ingest_step.
  pose proof (reachable_fetch_and_save_asset symbol w Hw) as H1.
  destruct (fetch_and_save_asset now ticker_metrics symbol w) as [[asset|] w1];
    [|done].
  destruct (negb (bool_decide (symbol ∈ all_symbols))); [|done].
  match goal with
  | |- context [add_symbol_with_metadata ?a ?b ?c ?d ?e] =>
      pose proof (step_add_symbol a b list_of_set c d e) as Hstep;
      destruct (add_symbol_with_metadata a b c d e) as [[success msg] w2]
  end.
  simpl in *. assert (reachable now ticker_has_data list_of_set w2)
    by (by eapply reachable_step).
  by destruct success.
Qed.

Lemma reachable_ingest_assets_service update_symbols w :
  reachable now ticker_has_data list_of_set w →
  reachable now ticker_has_data list_of_set
    (ingest_assets_service now ticker_has_data ticker_metrics update_symbols w).2.
Proof.
  intros Hw. unfold ingest_assets_service.
  assert (reachable now ticker_has_data list_of_set (get_symbols w).2) as H0
    by (eapply reachable_step; [exact Hw|apply step_get_symbols]).
  destruct (get_symbols w) as [all_symbols w0]. simpl in H0.
  assert (∀ l acc w1, reachable now ticker_has_data list_of_set w1 →
            reachable now ticker_has_data list_of_set
              (foldl (ingest_step now ticker_has_data ticker_metrics all_symbols)
                     (acc, w1) l).2) as Hloop.
  { induction l as [|symbol l IH]; intros acc w1 Hw1; [done|].
    cbn [foldl].
    pose proof (reachable_ingest_step all_symbols acc w1 symbol Hw1) as Hs.
    destruct (ingest_step now ticker_has_data ticker_metrics all_symbols (acc, w1) symbol)
      as [acc2 w2]. by apply IH. }
  specialize (Hloop update_symbols (mkIngestAcc [] [] []) w0 H0).
  by destruct (foldl _ _ update_symbols).
Qed.
End orchestrator_steps.

Lemma sample_clock_monotone (i j : nat) :
  i ≤ j → String.leb (sample_clock i) (sample_clock j) = true.
Proof.
  intros Hij. unfold sample_clock.
  assert (forallb (λ a, forallb (λ b,
            (b <? a) || String.leb ("2024-01-01T00:00:" +:+ two_digits a)
                                   ("2024-01-01T00:00:" +:+ two_digits b))
            (seq 0 60)) (seq 0 60) = true) as Hall by (by vm_compute).
  eapply forallb_forall in Hall; [|apply (in_seq 60 0 (i `min` 59)); lia].
  eapply forallb_forall in Hall; [|apply (in_seq 60 0 (j `min` 59)); lia].
  apply orb_true_iff in Hall as [Hlt|Hle]; [|done].
  apply Nat.ltb_lt in Hlt. lia.
Qed.

(** C10 as stated, without a condition on the clock, fails. After two
    snapshots of a symbol with the clock set back in between, the store
    is reachable and the symbol has a current record and history, but
    the current record carries the second reading while the newest
    history entry, by timestamp, carries the first. And the reset does
    not clear both tables: after [truncate_db] the current record is
    still there, while the history is gone. *)
Lemma snapshot_timestamps_coherent_clock_set_back :
  reachable clock_set_back sample_has_data remove_dups set_back_second ∧
  c_last_updated <$> get_assets_with_metadata set_back_second
  = ["2024-11-03T01:00:00"] ∧
  h_timestamp <$> get_asset_history "TSLA" 1 set_back_second
  = [Some "2024-11-03T01:30:00"] ∧
  ¬ coherent set_back_second ∧
  get_assets_with_metadata (truncate_db set_back_second)
  = [mkCurrentDoc "TSLA" 101 1 99 "2024-11-03T01:00:00"] ∧
  get_asset_history "TSLA" 1 (truncate_db set_back_second) = [].
Proof.
  split; [|split; [|split; [|split; [|split]]]]; try reflexivity.
  - eapply reachable_step; [|apply step_save].
    eapply reachable_step; [apply reachable_fresh|apply step_save].
  - intros Hcoherent.
    specialize (Hcoherent
      (mkCurrentDoc "TSLA" 101 1 99 "2024-11-03T01:00:00")
      (mkHistoryDoc (Some "TSLA") (Some "2024-11-03T01:30:00")
                    (Some (mkMetrics 100 1.5 98)) None)).
    assert (Some "2024-11-03T01:30:00" = Some "2024-11-03T01:00:00") as Hsame.
    { apply Hcoherent; [|reflexivity]. apply list_elem_of_singleton. reflexivity. }
    discriminate Hsame.
Qed.

(** C10, at a concrete store: two snapshots of a symbol, then a trim. *)
Lemma snapshot_timestamps_coherent_witness :
  coherent (with_history (trim_asset_history "TSLA" 1) (after_snapshots 2 "TSLA")).
Proof.
  apply (proj2 (snapshot_timestamps_coherent sample_clock sample_clock_monotone
                  sample_has_data remove_dups)).
  eapply reachable_step; [|apply step_trim].
  change (after_snapshots 2 "TSLA")
    with (save_asset_metadata sample_clock "TSLA" (metadata_of sample_metrics)
            (save_asset_metadata sample_clock "TSLA" (metadata_of sample_metrics)
               fresh_store)).
  eapply reachable_step; [|apply step_save].
  eapply reachable_step; [|apply step_save].
  apply reachable_fresh.
Defined.

(** * Further properties of the store *)

Lemma filter_true {A} (l : list A) : List.filter (λ _, true) l = l.
Proof. induction l as [|x l IH]; simpl; by rewrite ?IH. Qed.

Lemma filter_filter_andb {A} (f g : A → bool) (l : list A) :
  List.filter g (List.filter f l) = List.filter (λ x, f x && g x) l.
Proof.
  induction l as [|x l IH]; simpl; [done|].
  destruct (f x); simpl; [|done]. destruct (g x); by rewrite IH.
Qed.

Lemma slice_to_nil {A} (stop : Z) : slice_to stop (@nil A) = [].
Proof. unfold slice_to. destruct (_ <? _)%Z; apply take_nil. Qed.

Lemma get_symbols_cases w :
  get_symbols w
  = match TinyDB.all (symbols_table w) with
    | [] => (default_symbols, with_symbols (TinyDB.insert default_symbols) w)
    | doc :: _ => (doc, w)
    end.
Proof. unfold get_symbols, TinyDB.search. by rewrite filter_true. Qed.

(** X1. [get_symbols] returns the first document of the symbols table,
    or the three defaults when the table is empty; after the call the
    table holds what was returned as its first document, and a second
    call returns the same list and leaves the store as it is: the
    defaults are seeded once. *)
Theorem get_symbols_seeds_once (w : World) :
  let r := get_symbols w in
  r.1 = default default_symbols (head (TinyDB.all (symbols_table w))) ∧
  head (TinyDB.all (symbols_table r.2)) = Some r.1 ∧
  get_symbols r.2 = r.
Proof.
  intros r. subst r. rewrite (get_symbols_cases w).
  destruct (TinyDB.all (symbols_table w)) as [|doc docs] eqn:Hall; simpl.
  - assert (TinyDB.all (symbols_table
              (with_symbols (TinyDB.insert default_symbols) w))
            = [default_symbols]) as Hseeded.
    { change (TinyDB.all (TinyDB.insert default_symbols (symbols_table w))
              = [default_symbols]).
      by rewrite tinydb_all_insert, Hall. }
    rewrite get_symbols_cases, Hseeded. simpl in Hseeded. by rewrite Hseeded.
  - rewrite get_symbols_cases, Hall. done.
Qed.

Section registration_effect.
Variable ticker_has_data : string → bool.
Variable list_of_set : list string → list string.
Hypothesis list_of_set_elem : ∀ l x, x ∈ list_of_set l ↔ x ∈ l.

Lemma save_symbols_valid symbols w :
  valid_inputs ticker_has_data symbols ≠ [] →
  save_symbols ticker_has_data list_of_set symbols w
  = let updated_symbols :=
      list_of_set ((get_symbols w).1 ++ valid_inputs ticker_has_data symbols) in
    (updated_symbols,
     with_symbols (TinyDB.insert updated_symbols)
                  (with_symbols TinyDB.truncate (get_symbols w).2)).
Proof.
  unfold save_symbols, valid_inputs.
  rewrite <- (filter_filter_andb validate_symbol_format
                (is_valid_symbol ticker_has_data)).
  intros Hvalid.
  destruct (List.filter validate_symbol_format symbols) as [|s0 rest]; [done|].
  cbv zeta. rewrite filter_zip_fmap.
  destruct (List.filter _ (s0 :: rest)) as [|v vs]; [done|].
  by destruct (get_symbols w).
Qed.

(** X2. When at least one input symbol passes both checks,
    [save_symbols] returns the union of the tracked set, as
    [get_symbols] reads it, with the valid input symbols; the symbols
    table then holds that list as its only document, a following
    [get_symbols] returns it without writing, and the history and
    current tables are untouched. *)
Theorem save_symbols_merges (symbols : list string) (w : World) :
  valid_inputs ticker_has_data symbols ≠ [] →
  let r := save_symbols ticker_has_data list_of_set symbols w in
  (∀ x, x ∈ r.1 ↔ x ∈ (get_symbols w).1 ∨ x ∈ valid_inputs ticker_has_data symbols) ∧
  TinyDB.all (symbols_table r.2) = [r.1] ∧
  get_symbols r.2 = r ∧
  history_table r.2 = history_table w ∧
  current_table r.2 = current_table w.
Proof.
  intros Hvalid r. subst r. rewrite save_symbols_valid by done. cbv zeta. simpl.
  destruct (get_symbols_frame w) as (Hh & Hc & _).
  split; [|split; [|split]].
  - intros x. by rewrite list_of_set_elem, elem_of_app.
  - done.
  - by rewrite get_symbols_cases.
  - done.
Qed.
End registration_effect.

(** X2, with the sample provider on a fresh store. *)
Lemma save_symbols_merges_witness :
  TinyDB.all (symbols_table
    (save_symbols sample_has_data remove_dups ["GOOG"; "bad"; "GOOG"] fresh_store).2)
  = [["BTC-USD"; "ETH-USD"; "TSLA"; "GOOG"]].
Proof.
  refine (eq_trans (proj1 (proj2
    (save_symbols_merges sample_has_data remove_dups _ ["GOOG"; "bad"; "GOOG"]
       fresh_store _))) _).
  - intros l x. apply elem_of_remove_dups.
  - discriminate.
  - reflexivity.
Defined.

(** X3. [truncate_db] empties the history and symbols tables and leaves
    the current table as it is: afterwards the current records are
    still listed, no symbol has history, and the next [get_symbols]
    seeds the defaults again. *)
Theorem truncate_db_keeps_current (w : World) :
  let w' := truncate_db w in
  get_assets_with_metadata w' = get_assets_with_metadata w ∧
  (∀ symbol limit, get_asset_history symbol limit w' = []) ∧
  (get_symbols w').1 = default_symbols ∧
  TinyDB.all (symbols_table (get_symbols w').2) = [default_symbols].
Proof.
  intros w'. subst w'. split; [done|]. split; [|done].
  intros symbol limit. unfold get_asset_history. simpl. apply slice_to_nil.
Qed.

(** ** Snapshots and the other symbols *)

Lemma sublist_StronglySorted {A} (R : relation A) (l l' : list A) :
  l `sublist_of` l' → StronglySorted R l' → StronglySorted R l.
Proof.
  induction 1 as [|x l l' Hsub IH|x l l' Hsub IH]; intros Hs; [done|..].
  - apply StronglySorted_inv in Hs as [Hs Hx]. constructor; [by apply IH|].
    apply Forall_forall. intros y Hy.
    eapply Forall_forall in Hx; [exact Hx|]. by eapply elem_of_sublist.
  - apply StronglySorted_inv in Hs as [Hs _]. by apply IH.
Qed.

Lemma current_symbols_update (symbol : string) (cm : CurrentDoc) (l : list CurrentDoc) :
  c_symbol cm = symbol →
  c_symbol <$> ((λ d, if bool_decide (c_symbol d = symbol) then cm else d) <$> l)
  = c_symbol <$> l.
Proof.
  intros Hcm. induction l as [|d l IH]; [done|].
  rewrite !fmap_cons. f_equal; [|exact IH].
  by destruct (bool_decide_reflect (c_symbol d = symbol)); [rewrite Hcm|].
Qed.

Lemma current_filter_update (symbol other : string) (cm : CurrentDoc)
    (l : list CurrentDoc) :
  c_symbol cm = symbol → other ≠ symbol →
  List.filter (λ c, bool_decide (c_symbol c = other))
              ((λ d, if bool_decide (c_symbol d = symbol) then cm else d) <$> l)
  = List.filter (λ c, bool_decide (c_symbol c = other)) l.
Proof.
  intros Hcm Hother. induction l as [|d l IH]; [done|].
  rewrite fmap_cons. cbn [List.filter].
  destruct (bool_decide_reflect (c_symbol d = symbol)) as [Hd|Hd].
  - rewrite (bool_decide_eq_false_2 (c_symbol cm = other)) by congruence.
    rewrite (bool_decide_eq_false_2 (c_symbol d = other)) by congruence.
    exact IH.
  - destruct (bool_decide (c_symbol d = other)); [f_equal|]; exact IH.
Qed.

Section current_facts.
Variable now : nat → string.

Lemma current_symbols_save symbol metadata w :
  NoDup (c_symbol <$> TinyDB.all (current_table w)) →
  NoDup (c_symbol <$>
         TinyDB.all (current_table (save_asset_metadata now symbol metadata w))).
Proof.
  intros Hnd.
  destruct (save_asset_metadata_cases now symbol metadata w) as [[m ->]| ->];
    [|done].
  rewrite save_asset_metadata_current. cbv zeta. unfold TinyDB.search.
  destruct (List.filter _ (TinyDB.all (current_table w))) as [|d ds] eqn:Hsearch.
  - rewrite tinydb_all_insert, fmap_app. apply NoDup_app.
    split; [done|]. split; [|apply NoDup_singleton].
    intros s Hs Hs'. apply list_elem_of_singleton in Hs'. simpl in Hs'. subst s.
    apply list_elem_of_fmap in Hs as (c & Hc & Hin).
    assert (c ∈ List.filter (λ d, bool_decide (c_symbol d = symbol))
                            (TinyDB.all (current_table w))) as Hfound.
    { apply elem_of_filter. split; [done|]. by apply bool_decide_eq_true. }
    rewrite Hsearch in Hfound. by apply elem_of_nil in Hfound.
  - rewrite tinydb_all_update, current_symbols_update; done.
Qed.

Lemma save_asset_metadata_reads symbol metadata w w0 :
  history_table w0 = history_table w →
  current_table w0 = current_table w →
  clock w0 = clock w →
  history_table (save_asset_metadata now symbol metadata w0)
  = history_table (save_asset_metadata now symbol metadata w) ∧
  current_table (save_asset_metadata now symbol metadata w0)
  = current_table (save_asset_metadata now symbol metadata w) ∧
  clock (save_asset_metadata now symbol metadata w0)
  = clock (save_asset_metadata now symbol metadata w).
Proof.
  destruct w as [s h c k], w0 as [s0 h0 c0 k0]. simpl. intros -> -> ->.
  unfold save_asset_metadata.
  destruct metadata as [[lp|] [cp|] [ap|]]; simpl; try done.
  by destruct (TinyDB.search _ c).
Qed.

(** X5. In every store the program can reach, the current table holds
    at most one record per symbol: [save_asset_metadata] inserts a
    record only when the symbol has none and rewrites the existing one
    otherwise. *)
Theorem reachable_current_unique ticker_has_data list_of_set (w : World) :
  reachable now ticker_has_data list_of_set w →
  NoDup (c_symbol <$> get_assets_with_metadata w).
Proof.
  unfold get_assets_with_metadata.
  induction 1 as [|w w' _ IH Hstep]; [constructor|].
  destruct Hstep as [symbol metadata w|symbol keep_last w|w|w|symbols w
                    |symbol metadata w|w]; try done.
  - by apply current_symbols_save.
  - destruct (get_symbols_frame w) as (_ & Hc & _). by rewrite Hc.
  - destruct (save_symbols_frame ticker_has_data list_of_set symbols w)
      as (_ & Hc & _). by rewrite Hc.
  - unfold add_symbol_with_metadata.
    destruct (negb (validate_symbol_format symbol)); [done|].
    destruct (negb (is_valid_symbol ticker_has_data symbol)); [done|].
    destruct (get_symbols_frame w) as (_ & Hc & _).
    destruct (get_symbols w) as [existing_symbols w0]. simpl in *.
    apply current_symbols_save.
    destruct (bool_decide (symbol ∈ existing_symbols)); simpl; by rewrite Hc.
Qed.

(** X6. A snapshot of one symbol leaves the other symbols alone: for
    every [other] symbol, its history as [get_asset_history] returns it
    (for any limit) and its current records are the same before and
    after [save_asset_metadata]. *)
Theorem save_asset_metadata_other_symbols
    (symbol other : string) (metadata : MetadataDict) (w : World) :
  other ≠ symbol →
  let w' := save_asset_metadata now symbol metadata w in
  (∀ limit, get_asset_history other limit w' = get_asset_history other limit w) ∧
  List.filter (λ c, bool_decide (c_symbol c = other)) (get_assets_with_metadata w')
  = List.filter (λ c, bool_decide (c_symbol c = other)) (get_assets_with_metadata w).
Proof.
  intros Hother w'. subst w'.
  destruct (save_asset_metadata_cases now symbol metadata w) as [[m ->]| ->];
    [|done].
  split.
  - intros limit. unfold get_asset_history.
    rewrite save_asset_metadata_history, tinydb_search_insert.
    assert (symbol_is other (mkHistoryDoc (Some symbol) (Some (now (clock w)))
                                          (Some m) None) = false) as ->.
    { apply bool_decide_eq_false. simpl. congruence. }
    by rewrite app_nil_r.
  - unfold get_assets_with_metadata.
    rewrite save_asset_metadata_current. cbv zeta.
    destruct (TinyDB.search _ (current_table w)).
    + rewrite tinydb_all_insert, List.filter_app. simpl.
      rewrite bool_decide_eq_false_2 by congruence. by rewrite app_nil_r.
    + rewrite tinydb_all_update. by apply current_filter_update.
Qed.
End current_facts.

Lemma reachable_after_snapshots (n : nat) (symbol : string) :
  reachable sample_clock sample_has_data remove_dups (after_snapshots n symbol).
Proof.
  induction n as [|n IH]; [apply reachable_fresh|].
  change (after_snapshots (S n) symbol)
    with (save_asset_metadata sample_clock symbol (metadata_of sample_metrics)
                              (after_snapshots n symbol)).
  eapply reachable_step; [exact IH|apply step_save].
Qed.

(** X5, after three snapshots of one symbol. *)
Lemma reachable_current_unique_witness :
  NoDup (c_symbol <$> get_assets_with_metadata (after_snapshots 3 "TSLA")).
Proof.
  apply (reachable_current_unique sample_clock sample_has_data remove_dups).
  apply reachable_after_snapshots.
Defined.

(** X6, with a snapshot of GOOG on a store that holds two of TSLA. *)
Lemma save_asset_metadata_other_symbols_witness :
  get_asset_history "TSLA" 10
    (save_asset_metadata sample_clock "GOOG" (metadata_of sample_metrics)
                         (after_snapshots 2 "TSLA"))
  = get_asset_history "TSLA" 10 (after_snapshots 2 "TSLA").
Proof.
  apply (save_asset_metadata_other_symbols sample_clock "GOOG" "TSLA").
  discriminate.
Defined.

(** ** Reading the history *)

(** X7. What [get_asset_history] returns is sorted newest first, holds
    only entries of the symbol that have a timestamp, is drawn from the
    stored entries without repetition, and has at most [limit] entries
    when [limit] is not negative. *)
Theorem get_asset_history_newest_first (symbol : string) (limit : Z) (w : World) :
  let r := get_asset_history symbol limit w in
  StronglySorted (λ a b, String.leb (timestamp_key b) (timestamp_key a) = true) r ∧
  Forall (λ e, h_symbol e = Some symbol ∧ is_Some (h_timestamp e)) r ∧
  r ⊆+ TinyDB.all (history_table w) ∧
  ((0 ≤ limit)%Z → (Z.of_nat (length r) ≤ limit)%Z).
Proof.
  intros r. subst r. unfold get_asset_history, TinyDB.search.
  set (results := List.filter (symbol_is symbol) (TinyDB.all (history_table w))).
  destruct (forallb _ results) eqn:Hts.
  2:{ split; [constructor|]. split; [constructor|].
      split; [apply submseteq_nil_l|simpl; lia]. }
  assert (sorted_reverse timestamp_key results ≡ₚ results) as Hperm
    by apply sorted_by_Permutation.
  pose proof (slice_to_sublist limit (sorted_reverse timestamp_key results)) as Hsub.
  split; [|split; [|split]].
  - eapply sublist_StronglySorted; [exact Hsub|].
    apply (sorted_by_StronglySorted
             (λ x y : HistoryDoc, String.leb (timestamp_key y) (timestamp_key x))).
    + intros x y z Hxy Hyz. eapply string_leb_trans; [exact Hyz|exact Hxy].
    + intros x y Hxy. by apply string_leb_total.
  - apply Forall_forall. intros e He.
    assert (e ∈ results) as Hin.
    { rewrite <- Hperm. by eapply elem_of_sublist. }
    split.
    + apply elem_of_filter in Hin as [_ Hsym]. by apply bool_decide_eq_true in Hsym.
    + eapply forallb_forall in Hts; [|apply list_elem_of_In, Hin].
      by apply bool_decide_eq_true in Hts.
  - transitivity (sorted_reverse timestamp_key results);
      [by apply sublist_submseteq|].
    rewrite Hperm. apply sublist_submseteq, filter_sublist.
  - intros Hlimit. rewrite slice_to_take, length_take by done. lia.
Qed.

(** ** Registering one symbol *)

Lemma get_symbols_head w doc :
  head (TinyDB.all (symbols_table w)) = Some doc → get_symbols w = (doc, w).
Proof.
  rewrite get_symbols_cases.
  destruct (TinyDB.all (symbols_table w)); simpl; [done|]. by intros [= ->].
Qed.

Lemma get_symbols_stored w :
  head (TinyDB.all (symbols_table (get_symbols w).2)) = Some (get_symbols w).1.
Proof.
  rewrite get_symbols_cases.
  destruct (TinyDB.all (symbols_table w)) as [|doc docs] eqn:Hall; simpl.
  - by rewrite tinydb_all_insert, Hall.
  - by rewrite Hall.
Qed.

(** [get_symbols] reads the symbols table only. *)
Lemma get_symbols_reads w w' :
  symbols_table w' = symbols_table w → (get_symbols w').1 = (get_symbols w).1.
Proof.
  intros Hs. rewrite !get_symbols_cases, Hs.
  by destruct (TinyDB.all (symbols_table w)).
Qed.

Lemma save_asset_metadata_symbols now symbol metadata w :
  symbols_table (save_asset_metadata now symbol metadata w) = symbols_table w.
Proof.
  unfold save_asset_metadata.
  destruct metadata as [[lp|] [cp|] [ap|]]; simpl; try done.
  by destruct (TinyDB.search _ _).
Qed.

Section add_symbol_facts.
Variable now : nat → string.
Variable ticker_has_data : string → bool.

(** The symbols table after a call of [add_symbol_with_metadata] that
    starts from a table whose first document is [tracked]. *)
Lemma add_symbol_with_metadata_symbols symbol metadata w tracked :
  head (TinyDB.all (symbols_table w)) = Some tracked →
  head (TinyDB.all (symbols_table
          (add_symbol_with_metadata now ticker_has_data symbol metadata w).2))
  = Some (if bool_decide (registration_failure ticker_has_data symbol = None)
             && negb (bool_decide (symbol ∈ tracked))
          then tracked ++ [symbol] else tracked).
Proof.
  intros Hhead. unfold add_symbol_with_metadata, registration_failure, is_valid_symbol.
  destruct (negb (validate_symbol_format symbol)); [done|].
  destruct (negb (ticker_has_data symbol)); [done|].
  rewrite (get_symbols_head w tracked Hhead).
  cbn [snd]. rewrite save_asset_metadata_symbols.
  rewrite (bool_decide_eq_true_2 (None = None)) by done.
  by destruct (bool_decide (symbol ∈ tracked)).
Qed.

(** X8. [add_symbol_with_metadata] on a symbol that fails a check
    returns the failure message and leaves the store as it is. On a
    symbol that passes it reports success, whatever [metadata] holds;
    the tracked list read back is the previous one, with the symbol
    appended if it was not in it; and the history and current tables
    are what [save_asset_metadata] makes of the ones before. *)
Theorem add_symbol_with_metadata_effect
    (symbol : string) (metadata : MetadataDict) (w : World) :
  let r := add_symbol_with_metadata now ticker_has_data symbol metadata w in
  match registration_failure ticker_has_data symbol with
  | Some msg => r = ((false, msg), w)
  | None =>
    r.1 = (true, "Successfully added " +:+ symbol +:+ " with metadata") ∧
    (get_symbols r.2).1
    = (if bool_decide (symbol ∈ (get_symbols w).1) then (get_symbols w).1
       else (get_symbols w).1 ++ [symbol]) ∧
    history_table r.2 = history_table (save_asset_metadata now symbol metadata w) ∧
    current_table r.2 = current_table (save_asset_metadata now symbol metadata w)
  end.
Proof.
  intros r. subst r.
  pose proof (add_symbol_with_metadata_symbols symbol metadata (get_symbols w).2
                (get_symbols w).1 (get_symbols_stored w)) as Hsym.
  revert Hsym.
  unfold add_symbol_with_metadata, registration_failure, is_valid_symbol.
  destruct (negb (validate_symbol_format symbol)); [done|].
  destruct (negb (ticker_has_data symbol)); [done|].
  rewrite (get_symbols_head _ _ (get_symbols_stored w)).
  destruct (get_symbols_frame w) as (Hh & Hc & Hclock).
  destruct (get_symbols w) as [existing_symbols w0]. simpl in *.
  intros Hsym. split; [done|]. split.
  - rewrite (get_symbols_head _ _ Hsym).
    by destruct (bool_decide (symbol ∈ existing_symbols)).
  - assert (∀ w1, history_table w1 = history_table w0 →
                  current_table w1 = current_table w0 → clock w1 = clock w0 →
              history_table (save_asset_metadata now symbol metadata w1)
              = history_table (save_asset_metadata now symbol metadata w) ∧
              current_table (save_asset_metadata now symbol metadata w1)
              = current_table (save_asset_metadata now symbol metadata w)) as Hsave.
    { intros w1 H1 H2 H3.
      destruct (save_asset_metadata_reads now symbol metadata w w1) as (? & ? & _);
        [congruence..|done]. }
    destruct (bool_decide (symbol ∈ existing_symbols)); by apply Hsave.
Qed.
End add_symbol_facts.

(** ** The trim, continued *)

(** X10. [trim_asset_history] only ever deletes from the history
    table: what is stored afterwards is a subsequence of what was
    stored before, in the same order; and when the symbol has at most
    [keep_last] entries the table is left as it is. *)
Theorem trim_asset_history_only_removes
    (symbol : string) (keep_last : Z) (t : TinyDB.Table HistoryDoc) :
  TinyDB.all (trim_asset_history symbol keep_last t) `sublist_of` TinyDB.all t ∧
  ((Z.of_nat (length (entries_of symbol t)) ≤ keep_last)%Z →
   trim_asset_history symbol keep_last t = t).
Proof.
  split.
  - destruct (trim_asset_history_cases symbol keep_last t) as [->|[_ ->]]; [done|].
    exact (table_remove_sublist (T := TinyDB.Table HistoryDoc)
             (trim_doc_ids symbol keep_last t) t).
  - apply trim_asset_history_within_bound.
Qed.

Lemma with_history_id (w : World) (t : TinyDB.Table HistoryDoc) :
  t = history_table w → with_history (λ _, t) w = w.
Proof. intros ->. by destruct w. Qed.

(** X11. In every store the program can reach, [trim_all_histories]
    changes nothing, for any symbols and any bound: the entries that
    [save_asset_metadata] writes carry no ['doc_id'] key, so no id is
    ever handed to [remove]. *)
Theorem trim_all_histories_reachable
    (now : nat → string) (ticker_has_data : string → bool)
    (list_of_set : list string → list string)
    (symbols : list string) (keep_last : Z) (w : World) :
  reachable now ticker_has_data list_of_set w →
  trim_all_histories symbols keep_last w = w.
Proof.
  intros Hw. unfold trim_all_histories.
  induction symbols as [|symbol symbols IH]; [done|]. cbn [foldl].
  assert (with_history (trim_asset_history symbol keep_last) w = w) as ->; [|done].
  unfold with_history.
  rewrite (trim_asset_history_written now) by (by eapply reachable_history_inv).
  by destruct w.
Qed.

(** X11, on twelve snapshots of one symbol and the default bound. *)
Lemma trim_all_histories_reachable_witness :
  trim_all_histories ["TSLA"; "GOOG"] 10 (after_snapshots 12 "TSLA")
  = after_snapshots 12 "TSLA".
Proof.
  apply (trim_all_histories_reachable sample_clock sample_has_data remove_dups).
  apply reachable_after_snapshots.
Defined.

(** X9, on the table of [test_trim_asset_history]: of the twelve
    entries, ten are left. *)
Lemma trim_asset_history_with_ids_witness :
  length (entries_of "TSLA" (trim_asset_history "TSLA" 10 test_history_table)) = 10.
Proof.
  refine (eq_trans (proj1 (proj2
    (trim_asset_history_with_ids "TSLA" 10 test_history_table _ _ _))) _).
  - done.
  - apply Forall_forall. intros e He. apply list_elem_of_In in He. simpl in He.
    repeat (destruct He as [<-|He]; [by eexists|]). done.
  - apply (bool_decide_unpack _). by vm_compute.
  - by vm_compute.
Defined.

(** ** The history under the orchestrators *)

Section history_growth.
Variable now : nat → string.
Variable ticker_has_data : string → bool.
Variable ticker_metrics : string → option Metrics.
Variable list_of_set : list string → list string.

Lemma fetch_and_save_asset_history symbol w :
  history_inv now w →
  history_table (fetch_and_save_asset now ticker_metrics symbol w).2
  = match ticker_metrics symbol with
    | Some m =>
      TinyDB.insert (mkHistoryDoc (Some symbol) (Some (now (clock w))) (Some m) None)
                    (history_table w)
    | None => history_table w
    end.
Proof.
  intros Hinv. unfold fetch_and_save_asset, fetch_financial_data.
  destruct (ticker_metrics symbol) as [m|]; simpl; [|done].
  rewrite (trim_asset_history_written now) by (by apply history_inv_save).
  apply save_asset_metadata_history.
Qed.

Lemma fetch_and_save_asset_history_inv symbol w :
  history_inv now w →
  history_inv now (fetch_and_save_asset now ticker_metrics symbol w).2.
Proof.
  intros Hinv. unfold fetch_and_save_asset, fetch_financial_data.
  destruct (ticker_metrics symbol) as [m|]; simpl; [|done].
  pose proof (history_inv_save now symbol (metadata_of m) w Hinv) as Hsaved.
  eapply (history_inv_frame now); [| |exact Hsaved]; simpl; [|lia].
  by apply (trim_asset_history_written now).
Qed.

Lemma gather_history symbols w :
  history_inv now w →
  h_symbol <$> TinyDB.all (history_table
                 (gather (fetch_and_save_asset now ticker_metrics <$> symbols) w).2)
  = (h_symbol <$> TinyDB.all (history_table w))
    ++ (Some <$> List.filter (fetched ticker_metrics) symbols).
Proof.
  revert w. induction symbols as [|symbol symbols IH]; intros w Hinv.
  { simpl. by rewrite app_nil_r. }
  rewrite fmap_cons. cbn [gather].
  pose proof (fetch_and_save_asset_history symbol w Hinv) as Hh.
  pose proof (fetch_and_save_asset_history_inv symbol w Hinv) as Hinv'.
  destruct (fetch_and_save_asset now ticker_metrics symbol w) as [r w1].
  simpl in Hh, Hinv'. specialize (IH w1 Hinv').
  destruct (gather _ w1) as [rs w2]. simpl in *.
  rewrite IH, Hh. unfold fetched at 2.
  destruct (ticker_metrics symbol) as [m|].
  - rewrite bool_decide_eq_true_2 by done.
    rewrite tinydb_all_insert, fmap_app, <- app_assoc. done.
  - rewrite bool_decide_eq_false_2; [done|]. by intros [? ?].
Qed.

(** X12. On a store the program can reach,
    [update_assets_and_trim_history] appends one history entry for
    every listed symbol whose fetch returns data, in the order of the
    list, and removes none: the stored history only grows. *)
Theorem update_assets_and_trim_history_grows (symbols : list string) (w : World) :
  reachable now ticker_has_data list_of_set w →
  h_symbol <$> TinyDB.all (history_table
                 (update_assets_and_trim_history now ticker_metrics symbols w))
  = (h_symbol <$> TinyDB.all (history_table w))
    ++ (Some <$> List.filter (fetched ticker_metrics) symbols).
Proof.
  intros Hw. apply gather_history. by eapply reachable_history_inv.
Qed.

Lemma gather_nothing_fetched symbols w :
  (∀ s, s ∈ symbols → ticker_metrics s = None) →
  gather (fetch_and_save_asset now ticker_metrics <$> symbols) w
  = (const None <$> symbols, w).
Proof.
  induction symbols as [|symbol symbols IH]; intros Hnone; [done|].
  rewrite !fmap_cons. cbn [gather].
  unfold fetch_and_save_asset at 1, fetch_financial_data.
  rewrite (Hnone symbol) by apply list_elem_of_here. simpl.
  rewrite IH; [done|]. intros s Hs. apply Hnone. by apply list_elem_of_further.
Qed.

(** X13. When the provider has data for none of the symbols,
    [add_assets_service] returns one placeholder per symbol, in order,
    and leaves the store, the clock included, as it was. *)
Theorem add_assets_service_nothing_fetched (symbols : list string) (w : World) :
  (∀ s, s ∈ symbols → ticker_metrics s = None) →
  add_assets_service now ticker_metrics symbols w
  = ((λ s, mkAsset s None None None None) <$> symbols, w).
Proof.
  intros Hnone. unfold add_assets_service.
  rewrite gather_nothing_fetched by done. f_equal.
  clear Hnone. induction symbols as [|s symbols IH]; [done|].
  rewrite !fmap_cons. cbn [zip zip_with]. rewrite fmap_cons. f_equal. exact IH.
Qed.
End history_growth.

(** X12, with the sample provider: two of the three symbols fetch. *)
Lemma update_assets_and_trim_history_grows_witness :
  h_symbol <$> TinyDB.all (history_table
    (update_assets_and_trim_history sample_clock sample_ticker_metrics
       ["AAPL"; "bad"; "GOOG"] (after_snapshots 11 "AAPL")))
  = replicate 12 (Some "AAPL") ++ [Some "GOOG"].
Proof.
  refine (eq_trans
    (update_assets_and_trim_history_grows sample_clock sample_has_data
       sample_ticker_metrics remove_dups ["AAPL"; "bad"; "GOOG"]
       (after_snapshots 11 "AAPL") _) _).
  - apply reachable_after_snapshots.
  - by vm_compute.
Defined.

(** X13, with the sample provider. *)
Lemma add_assets_service_nothing_fetched_witness :
  add_assets_service sample_clock sample_ticker_metrics ["bad"; "1234"] fresh_store
  = ([mkAsset "bad" None None None None; mkAsset "1234" None None None None],
     fresh_store).
Proof.
  apply (add_assets_service_nothing_fetched sample_clock sample_ticker_metrics
           ["bad"; "1234"] fresh_store).
  intros s Hs. apply list_elem_of_In in Hs. simpl in Hs.
  by destruct Hs as [<-|[<-|[]]].
Defined.

(** ** What an ingestion leaves in the store *)

Section ingest_store.
Variable now : nat → string.
Variable ticker_has_data : string → bool.
Variable ticker_metrics : string → option Metrics.

Lemma fetch_and_save_asset_symbols symbol w :
  symbols_table (fetch_and_save_asset now ticker_metrics symbol w).2
  = symbols_table w.
Proof.
  unfold fetch_and_save_asset.
  destruct (fetch_financial_data ticker_metrics symbol) as [data|]; [|done].
  simpl. apply save_asset_metadata_symbols.
Qed.

Lemma add_symbol_with_metadata_history symbol (m : Metrics) w :
  h_symbol <$> TinyDB.all (history_table
     (add_symbol_with_metadata now ticker_has_data symbol (metadata_of m) w).2)
  = (h_symbol <$> TinyDB.all (history_table w))
    ++ (if bool_decide (registration_failure ticker_has_data symbol = None)
        then [Some symbol] else []).
Proof.
  unfold add_symbol_with_metadata, registration_failure, is_valid_symbol.
  destruct (negb (validate_symbol_format symbol)); [by rewrite app_nil_r|].
  destruct (negb (ticker_has_data symbol)); [by rewrite app_nil_r|].
  rewrite (bool_decide_eq_true_2 (None = None)) by done.
  destruct (get_symbols_frame w) as (Hh & _ & _).
  destruct (get_symbols w) as [existing_symbols w0]. simpl in Hh. cbn [snd].
  rewrite save_asset_metadata_history, tinydb_all_insert, fmap_app.
  by destruct (bool_decide (symbol ∈ existing_symbols)); simpl; rewrite Hh.
Qed.

Section loop.
Variable all_symbols : list string.

Lemma ingest_step_symbols acc w symbol tracked :
  head (TinyDB.all (symbols_table w)) = Some tracked →
  head (TinyDB.all (symbols_table
          (ingest_step now ticker_has_data ticker_metrics all_symbols
                       (acc, w) symbol).2))
  = Some (if ingest_registers ticker_has_data ticker_metrics all_symbols symbol
             && negb (bool_decide (symbol ∈ tracked))
          then tracked ++ [symbol] else tracked).
Proof.
  intros Hhead. unfold ingest_step, ingest_registers, fetched.
  pose proof (fetch_and_save_asset_result now ticker_metrics symbol w) as Hr.
  pose proof (fetch_and_save_asset_symbols symbol w) as Hs.
  destruct (fetch_and_save_asset now ticker_metrics symbol w) as [r w1].
  simpl in Hr, Hs. subst r. rewrite <- Hs in Hhead.
  destruct (ticker_metrics symbol) as [m|]; simpl; [|done].
  destruct (bool_decide (symbol ∈ all_symbols)); simpl; [done|].
  pose proof (add_symbol_with_metadata_symbols now ticker_has_data symbol
                (metadata_of m) w1 tracked Hhead) as Hs2.
  change (mkMetadataDict (Some (latest_price m)) (Some (change_percent_24h m))
                         (Some (average_price_7d m))) with (metadata_of m).
  destruct (add_symbol_with_metadata now ticker_has_data symbol (metadata_of m) w1)
    as [[success msg] w2]. simpl in Hs2.
  by destruct success.
Qed.

Lemma ingest_step_history acc w symbol :
  history_inv now w →
  let w' := (ingest_step now ticker_has_data ticker_metrics all_symbols
                         (acc, w) symbol).2 in
  history_inv now w' ∧
  h_symbol <$> TinyDB.all (history_table w')
  = (h_symbol <$> TinyDB.all (history_table w))
    ++ (Some <$> ingest_snapshots ticker_has_data ticker_metrics all_symbols symbol).
Proof.
  intros Hinv. unfold ingest_step, ingest_snapshots, ingest_registers, fetched.
  pose proof (fetch_and_save_asset_result now ticker_metrics symbol w) as Hr.
  pose proof (fetch_and_save_asset_history now ticker_metrics symbol w Hinv) as Hh.
  pose proof (fetch_and_save_asset_history_inv now ticker_metrics symbol w Hinv)
    as Hinv1.
  destruct (fetch_and_save_asset now ticker_metrics symbol w) as [r w1].
  simpl in Hr, Hh, Hinv1. subst r.
  destruct (ticker_metrics symbol) as [m|]; simpl.
  2:{ rewrite Hh, app_nil_r. done. }
  destruct (bool_decide (symbol ∈ all_symbols)); simpl.
  { rewrite Hh, tinydb_all_insert, fmap_app. done. }
  pose proof (add_symbol_with_metadata_history symbol m w1) as Hh2.
  pose proof (history_inv_add_symbol now ticker_has_data symbol (metadata_of m) w1
                Hinv1) as Hinv2.
  change (mkMetadataDict (Some (latest_price m)) (Some (change_percent_24h m))
                         (Some (average_price_7d m))) with (metadata_of m).
  destruct (add_symbol_with_metadata now ticker_has_data symbol (metadata_of m) w1)
    as [[success msg] w2]. simpl in Hh2, Hinv2.
  assert (h_symbol <$> TinyDB.all (history_table w2)
          = (h_symbol <$> TinyDB.all (history_table w))
            ++ (Some <$> (if bool_decide (registration_failure ticker_has_data symbol
                                          = None)
                          then [symbol; symbol] else [symbol]))) as Hh3.
  { rewrite Hh2, Hh, tinydb_all_insert, fmap_app, <- app_assoc.
    by destruct (bool_decide (registration_failure _ _ = None)). }
  by destruct success.
Qed.

(** The tracked list after the loop has gone through [symbols]. *)
Lemma ingest_loop_symbols symbols acc w tracked :
  head (TinyDB.all (symbols_table w)) = Some tracked →
  ∃ tracked',
    head (TinyDB.all (symbols_table
            (foldl (ingest_step now ticker_has_data ticker_metrics all_symbols)
                   (acc, w) symbols).2)) = Some tracked' ∧
    ∀ x, x ∈ tracked' ↔
         x ∈ tracked ∨
         (x ∈ symbols ∧
          ingest_registers ticker_has_data ticker_metrics all_symbols x = true).
Proof.
  revert acc w tracked.
  induction symbols as [|symbol symbols IH]; intros acc w tracked Hhead.
  { simpl. exists tracked. split; [done|].
    intros x. split; [by left|]. intros [?|[Hx _]]; [done|].
    by apply elem_of_nil in Hx. }
  cbn [foldl].
  pose proof (ingest_step_symbols acc w symbol tracked Hhead) as Hs.
  destruct (ingest_step now ticker_has_data ticker_metrics all_symbols (acc, w) symbol)
    as [acc1 w1]. simpl in Hs.
  destruct (IH acc1 w1 _ Hs) as (tracked' & Hs' & Hmem).
  exists tracked'. split; [exact Hs'|]. intros x. rewrite Hmem, elem_of_cons.
  destruct (ingest_registers ticker_has_data ticker_metrics all_symbols symbol)
    eqn:Hreg; simpl.
  - destruct (bool_decide_reflect (symbol ∈ tracked)) as [Hin|Hin]; simpl.
    + split; [intros [?|[? ?]]; [by left|by right; split; [right|]]|].
      intros [?|[[ -> | ? ] ?]]; [by left|by left|by right].
    + rewrite elem_of_app, list_elem_of_singleton.
      split; [intros [[ ? | -> ]|[? ?]]|intros [?|[[ -> | ? ] ?]]].
      * by left.
      * right. split; [by left|done].
      * right. split; [by right|done].
      * by left; left.
      * by left; right.
      * by right.
  - split; [intros [?|[? ?]]; [by left|by right; split; [right|]]|].
    intros [?|[[ -> | ? ] Hx]]; [by left|congruence|by right].
Qed.

Lemma ingest_loop_history symbols acc w :
  history_inv now w →
  h_symbol <$> TinyDB.all (history_table
     (foldl (ingest_step now ticker_has_data ticker_metrics all_symbols)
            (acc, w) symbols).2)
  = (h_symbol <$> TinyDB.all (history_table w))
    ++ (Some <$> symbols ≫=
                 ingest_snapshots ticker_has_data ticker_metrics all_symbols).
Proof.
  revert acc w. induction symbols as [|symbol symbols IH]; intros acc w Hinv.
  { simpl. by rewrite app_nil_r. }
  cbn [foldl].
  destruct (ingest_step_history acc w symbol Hinv) as (Hinv1 & Hh).
  destruct (ingest_step now ticker_has_data ticker_metrics all_symbols (acc, w) symbol)
    as [acc1 w1]. simpl in Hinv1, Hh.
  rewrite (IH acc1 w1 Hinv1), Hh, bind_cons, fmap_app, <- app_assoc. done.
Qed.
End loop.

(** X14. After [ingest_assets_service] the tracked symbols are the
    ones tracked before together with the input symbols whose fetch
    returned data and which pass the format and existence checks; a
    symbol is never dropped from the tracked list, and a symbol whose
    fetch returned nothing or which fails a check is not added. *)
Theorem ingest_assets_service_tracks
    (update_symbols : list string) (w : World) (x : string) :
  let w' := (ingest_assets_service now ticker_has_data ticker_metrics
                                   update_symbols w).2 in
  x ∈ (get_symbols w').1 ↔
  x ∈ (get_symbols w).1 ∨
  (x ∈ update_symbols ∧ is_Some (ticker_metrics x) ∧
   registration_failure ticker_has_data x = None).
Proof.
  intros w'. subst w'. unfold ingest_assets_service.
  pose proof (get_symbols_stored w) as Hhead.
  destruct (get_symbols w) as [all_symbols w0]. simpl in *.
  destruct (ingest_loop_symbols all_symbols update_symbols (mkIngestAcc [] [] []) w0
              all_symbols Hhead) as (tracked' & Hs & Hmem).
  destruct (foldl _ _ update_symbols) as [acc w1]. simpl in *.
  rewrite (get_symbols_head _ _ Hs), Hmem. simpl.
  unfold ingest_registers, fetched.
  rewrite !andb_true_iff, negb_true_iff, !bool_decide_eq_true, bool_decide_eq_false.
  destruct (decide (x ∈ all_symbols)); tauto.
Qed.

Variable list_of_set : list string → list string.

(** X15. On a store the program can reach, [ingest_assets_service]
    appends to the history, in input order, one entry for every input
    symbol whose fetch returned data, and a second entry right after it
    when the symbol was not tracked at the start of the call and its
    registration goes through: [fetch_and_save_asset] and
    [add_symbol_with_metadata] both take the snapshot. Nothing is
    removed. *)
Theorem ingest_assets_service_history (update_symbols : list string) (w : World) :
  reachable now ticker_has_data list_of_set w →
  let w' := (ingest_assets_service now ticker_has_data ticker_metrics
                                   update_symbols w).2 in
  h_symbol <$> TinyDB.all (history_table w')
  = (h_symbol <$> TinyDB.all (history_table w))
    ++ (Some <$> update_symbols ≫=
                 ingest_snapshots ticker_has_data ticker_metrics (get_symbols w).1).
Proof.
  intros Hw w'. subst w'. unfold ingest_assets_service.
  destruct (get_symbols_frame w) as (Hh & _ & Hclock).
  assert (history_inv now (get_symbols w).2) as Hinv0.
  { apply (history_inv_frame now w); [done|lia|].
    by eapply reachable_history_inv. }
  destruct (get_symbols w) as [all_symbols w0]. simpl in *.
  pose proof (ingest_loop_history all_symbols update_symbols (mkIngestAcc [] [] [])
                w0 Hinv0) as Hh'.
  destruct (foldl _ _ update_symbols) as [acc w1]. simpl in *.
  by rewrite Hh', Hh.
Qed.
End ingest_store.

(** X14, with the sample provider on a fresh store: GOOG is fetched
    and passes the checks. *)
Lemma ingest_assets_service_tracks_witness :
  "GOOG" ∈ (get_symbols
              (ingest_assets_service sample_clock sample_has_data
                 sample_ticker_metrics ["aapl"; "bad"; "GOOG"] fresh_store).2).1.
Proof.
  apply (ingest_assets_service_tracks sample_clock sample_has_data
           sample_ticker_metrics ["aapl"; "bad"; "GOOG"] fresh_store "GOOG").
  right. split; [|split].
  - by apply (bool_decide_unpack _).
  - by eexists.
  - reflexivity.
Defined.

(** X15, with the sample provider on a fresh store: the new symbol
    GOOG gets two entries, the unregistered [aapl] one. *)
Lemma ingest_assets_service_history_witness :
  h_symbol <$> TinyDB.all (history_table
    (ingest_assets_service sample_clock sample_has_data sample_ticker_metrics
       ["aapl"; "bad"; "GOOG"] fresh_store).2)
  = [Some "aapl"; Some "GOOG"; Some "GOOG"].
Proof.
  refine (eq_trans
    (ingest_assets_service_history sample_clock sample_has_data
       sample_ticker_metrics remove_dups ["aapl"; "bad"; "GOOG"] fresh_store
       (reachable_fresh _ _ _)) _).
  by vm_compute.
Defined.

(** * Properties of the handlers *)

Lemma save_symbols_invalid ticker_has_data list_of_set symbols w :
  valid_inputs ticker_has_data symbols = [] →
  save_symbols ticker_has_data list_of_set symbols w = ([], w).
Proof.
  unfold save_symbols, valid_inputs.
  rewrite <- (filter_filter_andb validate_symbol_format
                (is_valid_symbol ticker_has_data)).
  intros Hvalid.
  destruct (List.filter validate_symbol_format symbols) as [|s0 rest]; [done|].
  cbv zeta. by rewrite filter_zip_fmap, Hvalid.
Qed.

Section current_records.
Variable now : nat → string.
Variable ticker_metrics : string → option Metrics.

(** A symbol that has a current record keeps one. *)
Lemma current_symbols_save_mono symbol metadata w x :
  x ∈ c_symbol <$> TinyDB.all (current_table w) →
  x ∈ c_symbol <$>
      TinyDB.all (current_table (save_asset_metadata now symbol metadata w)).
Proof.
  intros Hx.
  destruct (save_asset_metadata_cases now symbol metadata w) as [[m ->]| ->];
    [|done].
  rewrite save_asset_metadata_current. cbv zeta.
  destruct (TinyDB.search _ (current_table w)).
  - rewrite tinydb_all_insert, fmap_app, elem_of_app. by left.
  - rewrite tinydb_all_update, current_symbols_update; done.
Qed.

Lemma fetch_and_save_asset_current symbol w x :
  x ∈ c_symbol <$> TinyDB.all (current_table w) ∨
  (x = symbol ∧ is_Some (ticker_metrics symbol)) →
  x ∈ c_symbol <$>
      TinyDB.all (current_table (fetch_and_save_asset now ticker_metrics symbol w).2).
Proof.
  unfold fetch_and_save_asset, fetch_financial_data.
  destruct (ticker_metrics symbol) as [m|]; simpl.
  - intros [Hx|[-> _]]; [by apply current_symbols_save_mono|].
    apply list_elem_of_fmap. eexists. split; [|apply save_asset_metadata_has_current].
    done.
  - intros [Hx|[_ [? ?]]]; done.
Qed.

Lemma gather_current symbols w x :
  x ∈ c_symbol <$> TinyDB.all (current_table w) ∨
  (x ∈ symbols ∧ is_Some (ticker_metrics x)) →
  x ∈ c_symbol <$>
      TinyDB.all (current_table
        (gather (fetch_and_save_asset now ticker_metrics <$> symbols) w).2).
Proof.
  revert w. induction symbols as [|symbol symbols IH]; intros w Hx.
  { destruct Hx as [Hx|[Hx _]]; [done|]. by apply elem_of_nil in Hx. }
  rewrite fmap_cons. cbn [gather].
  pose proof (fetch_and_save_asset_current symbol w x) as H1.
  destruct (fetch_and_save_asset now ticker_metrics symbol w) as [r w1].
  specialize (IH w1).
  destruct (gather (fetch_and_save_asset now ticker_metrics <$> symbols) w1)
    as [rs w2]. simpl in *.
  apply IH. destruct Hx as [Hx|[Hx Hf]]; [by left; apply H1; left|].
  apply elem_of_cons in Hx as [->|Hx]; [|by right].
  left. apply H1. by right.
Qed.

Lemma add_assets_service_symbols symbols w :
  a_symbol <$> (add_assets_service now ticker_metrics symbols w).1 = symbols.
Proof.
  unfold add_assets_service.
  pose proof (gather_fetch_and_save_asset now ticker_metrics symbols w) as Hg.
  destruct (gather (fetch_and_save_asset now ticker_metrics <$> symbols) w)
    as [results w1]. simpl in *.
  induction Hg as [|symbol r symbols results [timestamp ->] _ IH]; [done|].
  cbn [zip zip_with]. rewrite !fmap_cons. f_equal; [|exact IH].
  by destruct (ticker_metrics symbol).
Qed.
End current_records.

Section handler_facts.
Variable now : nat → string.
Variable ticker_has_data : string → bool.
Variable ticker_metrics : string → option Metrics.
Variable list_of_set : list string → list string.

(** X16. [add_assets] answers 400 and leaves the store as it is when
    the request has no symbol, or none that passes the format and
    existence checks. *)
Theorem add_assets_rejects (symbols : list string) (w : World) :
  valid_inputs ticker_has_data symbols = [] →
  ∃ detail,
    add_assets now ticker_has_data ticker_metrics list_of_set symbols w
    = (HTTPException 400 detail, w).
Proof.
  intros Hvalid. unfold add_assets.
  destruct symbols as [|s symbols]; [by eexists|].
  rewrite save_symbols_invalid by done. by eexists.
Qed.

(** X17. When at least one symbol of the request passes the checks,
    [add_assets] answers with one asset per symbol of the request, in
    order, the symbols that failed the checks included; and every
    symbol of the request whose fetch returned data has a current
    record afterwards, whether or not it passed the checks.
    ([list(set(...))] is taken to keep the elements of its
    argument.) *)
Theorem add_assets_answers_request (symbols : list string) (w : World) :
  (∀ l x, x ∈ list_of_set l ↔ x ∈ l) →
  valid_inputs ticker_has_data symbols ≠ [] →
  let r := add_assets now ticker_has_data ticker_metrics list_of_set symbols w in
  ∃ assets,
    r.1 = Body assets ∧
    a_symbol <$> assets = symbols ∧
    ∀ s, s ∈ symbols → is_Some (ticker_metrics s) →
         s ∈ c_symbol <$> get_assets_with_metadata r.2.
Proof.
  intros Hset Hvalid r. subst r. unfold add_assets.
  destruct symbols as [|s0 symbols0]; [done|].
  set (symbols := s0 :: symbols0) in *.
  rewrite save_symbols_valid by done. cbv zeta.
  destruct (list_of_set _) as [|u us] eqn:Hupdated.
  - exfalso. destruct (valid_inputs ticker_has_data symbols) as [|v vs]; [done|].
    assert (v ∈ list_of_set ((get_symbols w).1 ++ v :: vs)) as Hv.
    { apply Hset, elem_of_app. right. apply list_elem_of_here. }
    rewrite Hupdated in Hv. by apply elem_of_nil in Hv.
  - pose proof (add_assets_service_symbols now ticker_metrics symbols) as Hsym.
    pose proof (gather_current now ticker_metrics symbols) as Hcur.
    unfold add_assets_service in *.
    match goal with
    | |- context [gather ?tasks ?w1] =>
        specialize (Hsym w1); specialize (Hcur w1); destruct (gather tasks w1)
          as [results w2]
    end.
    simpl in *. eexists. split; [done|]. split; [exact Hsym|].
    intros s Hs Hf. apply Hcur. by right.
Qed.
(** X24. [get_metrics] answers 404 and leaves the store as it is when
    the fetch returns nothing. Otherwise it stores a snapshot stamped
    with one clock reading and answers with the metrics and a second,
    later clock reading as [last_updated]: the history entry and the
    current record of the symbol carry the first reading. *)
Theorem get_metrics_effect (symbol : string) (w : World) :
  let r := get_metrics now ticker_metrics symbol w in
  match ticker_metrics symbol with
  | None => r = (HTTPException 404 ("Symbol " +:+ symbol +:+ " not found"), w)
  | Some m =>
    r.1 = Body (mkAsset symbol (Some (latest_price m)) (Some (change_percent_24h m))
                        (Some (average_price_7d m)) (Some (now (S (clock w))))) ∧
    last (TinyDB.all (history_table r.2))
    = Some (mkHistoryDoc (Some symbol) (Some (now (clock w))) (Some m) None) ∧
    (∃ c, c ∈ get_assets_with_metadata r.2 ∧ c_symbol c = symbol) ∧
    (∀ c, c ∈ get_assets_with_metadata r.2 → c_symbol c = symbol →
          c_last_updated c = now (clock w)) ∧
    clock r.2 = S (S (clock w))
  end.
Proof.
  intros r. subst r. unfold get_metrics, fetch_financial_data.
  destruct (ticker_metrics symbol) as [m|]; simpl; [|done].
  rewrite save_asset_metadata_clock. split; [done|]. split; [|split; [|split]].
  - by rewrite save_asset_metadata_history, tinydb_all_insert, last_snoc.
  - eexists. split; [apply save_asset_metadata_has_current|done].
  - intros c Hc Hsym.
    apply save_asset_metadata_current_docs in Hc as [->|[Hne _]]; done.
  - done.
Qed.

(** The documents of the symbols table are not empty. *)
Lemma reachable_symbols_nonempty w :
  (∀ l x, x ∈ list_of_set l ↔ x ∈ l) →
  reachable now ticker_has_data list_of_set w →
  Forall (λ doc, doc ≠ []) (TinyDB.all (symbols_table w)).
Proof.
  intros Hset. induction 1 as [|w w' _ IH Hstep]; [constructor|].
  assert (∀ w0, Forall (λ doc : list string, doc ≠ []) (TinyDB.all (symbols_table w0)) →
            Forall (λ doc : list string, doc ≠ [])
                   (TinyDB.all (symbols_table (get_symbols w0).2))) as Hget.
  { intros w0 H0. rewrite get_symbols_cases.
    destruct (TinyDB.all (symbols_table w0)) eqn:Hall; simpl; [|by rewrite Hall].
    rewrite tinydb_all_insert, Hall. by repeat constructor. }
  destruct Hstep as [symbol metadata w|symbol keep_last w|w|w|symbols w
                    |symbol metadata w|w]; try done.
  - by rewrite save_asset_metadata_symbols.
  - by apply Hget.
  - destruct (decide (valid_inputs ticker_has_data symbols = [])) as [Hnone|Hsome].
    + by rewrite save_symbols_invalid.
    + rewrite save_symbols_valid by done. cbv zeta.
      assert (list_of_set ((get_symbols w).1 ++ valid_inputs ticker_has_data symbols)
              ≠ []) as Hne.
      { intros Hempty.
        destruct (valid_inputs ticker_has_data symbols) as [|v vs]; [done|].
        assert (v ∈ list_of_set ((get_symbols w).1 ++ v :: vs)) as Hv.
        { apply Hset, elem_of_app. right. apply list_elem_of_here. }
        rewrite Hempty in Hv. by apply elem_of_nil in Hv. }
      simpl. repeat constructor. exact Hne.
  - unfold add_symbol_with_metadata.
    destruct (negb (validate_symbol_format symbol)); [done|].
    destruct (negb (is_valid_symbol ticker_has_data symbol)); [done|].
    specialize (Hget w IH).
    destruct (get_symbols w) as [existing_symbols w0]. simpl in *.
    rewrite save_asset_metadata_symbols.
    destruct (bool_decide (symbol ∈ existing_symbols)); [done|]. simpl.
    repeat constructor. by destruct existing_symbols.
Qed.

(** X23. On a store the program can reach, [get_assets] never answers
    with an empty list: it lists the current records when there are
    any, and otherwise one placeholder per tracked symbol, of which
    there is always at least one. ([list(set(...))] is taken to keep
    the elements of its argument.) *)
Theorem get_assets_never_empty (w : World) :
  (∀ l x, x ∈ list_of_set l ↔ x ∈ l) →
  reachable now ticker_has_data list_of_set w →
  ∃ assets,
    (get_assets w).1 = Body assets ∧
    assets ≠ [] ∧
    a_symbol <$> assets
    = match get_assets_with_metadata w with
      | [] => (get_symbols w).1
      | docs => c_symbol <$> docs
      end.
Proof.
  intros Hset Hw. unfold get_assets.
  destruct (get_assets_with_metadata w) as [|c cs].
  - assert ((get_symbols w).1 ≠ []) as Hne.
    { pose proof (reachable_symbols_nonempty w Hset Hw) as Hall.
      rewrite get_symbols_cases.
      destruct (TinyDB.all (symbols_table w)); simpl; [done|].
      by apply Forall_cons in Hall as [? _]. }
    destruct (get_symbols w) as [symbols w0]. simpl in *.
    eexists. split; [done|]. split.
    + by destruct symbols.
    + rewrite <- list_fmap_compose. clear Hne.
      induction symbols as [|s symbols IH]; [done|].
      rewrite fmap_cons. f_equal. exact IH.
  - eexists. split; [done|]. split; [done|].
    by rewrite <- !list_fmap_compose.
Qed.
End handler_facts.

(** X16, with the sample provider. *)
Lemma add_assets_rejects_witness :
  ∃ detail,
    add_assets sample_clock sample_has_data sample_ticker_metrics remove_dups
               ["aapl"; "1234"] (after_snapshots 1 "TSLA")
    = (HTTPException 400 detail, after_snapshots 1 "TSLA").
Proof.
  apply (add_assets_rejects sample_clock sample_has_data sample_ticker_metrics
           remove_dups ["aapl"; "1234"]).
  reflexivity.
Defined.

(** X17, with the sample provider: [aapl] fails the format check and is
    answered and stored all the same. *)
Lemma add_assets_answers_request_witness :
  let r := add_assets sample_clock sample_has_data sample_ticker_metrics remove_dups
                      ["AAPL"; "aapl"] fresh_store in
  ∃ assets,
    r.1 = Body assets ∧
    a_symbol <$> assets = ["AAPL"; "aapl"] ∧
    ∀ s, s ∈ ["AAPL"; "aapl"] → is_Some (sample_ticker_metrics s) →
         s ∈ c_symbol <$> get_assets_with_metadata r.2.
Proof.
  apply (add_assets_answers_request sample_clock sample_has_data
           sample_ticker_metrics remove_dups ["AAPL"; "aapl"] fresh_store).
  - intros l x. apply elem_of_remove_dups.
  - discriminate.
Defined.

(** X23, on a fresh store. *)
Lemma get_assets_never_empty_witness :
  ∃ assets,
    (get_assets fresh_store).1 = Body assets ∧
    assets ≠ [] ∧
    a_symbol <$> assets = (get_symbols fresh_store).1.
Proof.
  apply (get_assets_never_empty sample_clock sample_has_data remove_dups fresh_store).
  - intros l x. apply elem_of_remove_dups.
  - apply reachable_fresh.
Defined.

(** ** The history route *)

Lemma get_asset_history_elem symbol limit w e :
  e ∈ get_asset_history symbol limit w →
  e ∈ TinyDB.all (history_table w) ∧ h_symbol e = Some symbol ∧
  is_Some (h_timestamp e).
Proof.
  unfold get_asset_history, TinyDB.search.
  set (results := List.filter (symbol_is symbol) (TinyDB.all (history_table w))).
  destruct (forallb _ results) eqn:Hts; [|by intros ?%elem_of_nil].
  intros He.
  assert (e ∈ results) as Hin.
  { rewrite <- (sorted_by_Permutation
                  (λ x y, String.leb (timestamp_key y) (timestamp_key x)) results).
    eapply elem_of_sublist; [exact He|apply slice_to_sublist]. }
  pose proof Hin as [Hall Hsym]%elem_of_filter.
  split; [done|]. split; [by apply bool_decide_eq_true in Hsym|].
  eapply forallb_forall in Hts; [|apply list_elem_of_In, Hin].
  by apply bool_decide_eq_true in Hts.
Qed.

Lemma Forall2_impl_elem {A B} (P Q : A → B → Prop) (l : list A) (k : list B) :
  Forall2 P l k → (∀ x y, x ∈ l → P x y → Q x y) → Forall2 Q l k.
Proof.
  induction 1 as [|x y l k Hxy _ IH]; intros Himpl; constructor.
  - apply Himpl; [apply list_elem_of_here|done].
  - apply IH. intros x' y' Hx'. apply Himpl. by apply list_elem_of_further.
Qed.

Section history_route.
Variable now : nat → string.
Variable ticker_has_data : string → bool.
Variable list_of_set : list string → list string.
Variable validation_error : list HistoryDoc → string.

(** Every history entry of a reachable store has its [metadata]. *)
Lemma reachable_history_metadata w :
  reachable now ticker_has_data list_of_set w →
  Forall (λ e, is_Some (h_metadata e)) (TinyDB.all (history_table w)).
Proof.
  induction 1 as [|w w' Hw IH Hstep]; [constructor|].
  assert (∀ symbol metadata w0,
            history_table w0 = history_table w → clock w0 = clock w →
            current_table w0 = current_table w →
            Forall (λ e, is_Some (h_metadata e))
                   (TinyDB.all (history_table
                      (save_asset_metadata now symbol metadata w0)))) as Hsave.
  { intros symbol metadata w0 Hh Hclock Hc.
    destruct (save_asset_metadata_reads now symbol metadata w w0 Hh Hc Hclock)
      as (-> & _ & _).
    destruct (save_asset_metadata_cases now symbol metadata w) as [[m ->]| ->];
      [|done].
    rewrite save_asset_metadata_history, tinydb_all_insert.
    apply Forall_app. split; [done|]. by repeat constructor. }
  destruct Hstep as [symbol metadata w|symbol keep_last w|w|w|symbols w
                    |symbol metadata w|w]; try done.
  - by apply Hsave.
  - simpl. rewrite (trim_asset_history_written now); [done|].
    by eapply reachable_history_inv.
  - destruct (get_symbols_frame w) as (Hh & _ & _). by rewrite Hh.
  - destruct (save_symbols_frame ticker_has_data list_of_set symbols w)
      as (Hh & _ & _). by rewrite Hh.
  - unfold add_symbol_with_metadata.
    destruct (negb (validate_symbol_format symbol)); [done|].
    destruct (negb (is_valid_symbol ticker_has_data symbol)); [done|].
    destruct (get_symbols_frame w) as (Hh & Hc & Hclock).
    destruct (get_symbols w) as [existing_symbols w0]. simpl in *.
    by destruct (bool_decide (symbol ∈ existing_symbols)); apply Hsave.
Qed.

(** X18. On a store the program can reach, the history route answers
    404 exactly when [get_asset_history] returns nothing for the symbol
    and the limit, and otherwise the entries read, all of the symbol,
    as many as were read; it does not fail the validation of the
    response. *)
Theorem get_asset_history_endpoint_reachable
    (symbol : string) (limit : Z) (w : World) :
  reachable now ticker_has_data list_of_set w →
  match get_asset_history_endpoint validation_error symbol limit w with
  | Body entries =>
    entries ≠ [] ∧
    Forall2 (λ e entry, h_timestamp e = Some (he_timestamp entry) ∧
                        h_metadata e = Some (he_metadata entry) ∧
                        he_symbol entry = symbol)
            (get_asset_history symbol limit w) entries
  | HTTPException status_code detail =>
    status_code = 404 ∧
    detail = "No history found for symbol " +:+ symbol ∧
    get_asset_history symbol limit w = []
  end.
Proof.
  intros Hw. unfold get_asset_history_endpoint.
  pose proof (get_asset_history_elem symbol limit w) as Helem.
  pose proof (reachable_history_metadata w Hw) as Hmeta.
  destruct (get_asset_history symbol limit w) as [|e0 history0]; [done|].
  set (history := e0 :: history0) in *.
  assert (is_Some (mapM history_entry_of history)) as [entries Hentries].
  { apply mapM_is_Some, Forall_forall. intros e He.
    destruct (Helem e He) as (Hall & Hsym & [t Ht]).
    eapply Forall_forall in Hmeta as [m Hm]; [|exact Hall].
    unfold compose, history_entry_of. rewrite Hsym, Ht, Hm. by eexists. }
  rewrite Hentries. apply mapM_Some in Hentries. split.
  - intros ->. by apply Forall2_nil_inv_r in Hentries.
  - eapply Forall2_impl_elem; [exact Hentries|].
    intros e entry He Hentry. simpl in Hentry.
    destruct (Helem e He) as (_ & Hsym & _).
    unfold history_entry_of in Hentry. rewrite Hsym in Hentry.
    destruct (h_timestamp e), (h_metadata e); simplify_eq. done.
Qed.
End history_route.

(** X18, after two snapshots of a symbol. *)
Lemma get_asset_history_endpoint_reachable_witness :
  match get_asset_history_endpoint (λ _, "validation error") "TSLA" 1
                                   (after_snapshots 2 "TSLA") with
  | Body entries =>
    entries ≠ [] ∧
    Forall2 (λ e entry, h_timestamp e = Some (he_timestamp entry) ∧
                        h_metadata e = Some (he_metadata entry) ∧
                        he_symbol entry = "TSLA")
            (get_asset_history "TSLA" 1 (after_snapshots 2 "TSLA")) entries
  | HTTPException status_code detail =>
    status_code = 404 ∧
    detail = "No history found for symbol TSLA" ∧
    get_asset_history "TSLA" 1 (after_snapshots 2 "TSLA") = []
  end.
Proof.
  apply (get_asset_history_endpoint_reachable sample_clock sample_has_data
           remove_dups (λ _, "validation error") "TSLA" 1
           (after_snapshots 2 "TSLA")).
  apply reachable_after_snapshots.
Defined.

(** ** The ingestion and summary routes *)

Section batch_routes.
Variable now : nat → string.
Variable ticker_has_data : string → bool.
Variable ticker_metrics : string → option Metrics.
Variable llm : list FinancialData → option string.

(** X19. [ingest_data] works on the assets of the request, or on the
    tracked symbols when the request has no body, no list or an empty
    list. It answers 400 exactly when none of these symbols fetches
    data, and otherwise the report, whose updated assets are the
    symbols that fetched, in order; error messages in the report do
    not turn the answer into an error. *)
Theorem ingest_data_answer (request : option (option (list string))) (w : World) :
  let update_symbols :=
    match request with
    | Some (Some (s :: rest)) => s :: rest
    | _ => (get_symbols w).1
    end in
  match (ingest_data now ticker_has_data ticker_metrics request w).1 with
  | Body result =>
    updated_assets result ≠ [] ∧
    updated_assets result = List.filter (fetched ticker_metrics) update_symbols ∧
    updated_count result = length (updated_assets result) ∧
    message result = "Processed " +:+ pretty (length update_symbols) +:+ " symbols"
  | HTTPException status_code detail =>
    status_code = 400 ∧
    detail = "No valid data could be fetched for any symbol" ∧
    List.filter (fetched ticker_metrics) update_symbols = []
  end.
Proof.
  intros update_symbols. unfold ingest_data.
  assert (update_symbols
          = match request with
            | Some (Some (s :: rest)) => s :: rest
            | _ => (get_symbols w).1
            end) as Hupdate by done.
  clearbody update_symbols.
  destruct (get_symbols w) as [all_symbols w0]. simpl in Hupdate. rewrite <- Hupdate.
  pose proof (ingest_assets_service_result now ticker_has_data ticker_metrics
                update_symbols w0) as Hresult.
  destruct (ingest_assets_service now ticker_has_data ticker_metrics update_symbols w0)
    as [result w1]. simpl in Hresult. subst result. simpl.
  by destruct (List.filter (fetched ticker_metrics) update_symbols).
Qed.

End batch_routes.

(** * Properties of [common_utils] and of the format check *)

(** Induction on the values, with the hypothesis for the items of a
    list and of a dictionary. *)
Lemma PyValue_nested_ind (P : PyValue → Prop) :
  (∀ v, P (PyNative v)) →
  (∀ v, P (PyNumpy v)) →
  (∀ items, Forall P items → P (PyList items)) →
  (∀ items, P (PyTuple items)) →
  (∀ items, Forall (λ kv, P kv.2) items → P (PyDict items)) →
  ∀ obj, P obj.
Proof.
  intros Hnative Hnumpy Hlist Htuple Hdict.
  fix IH 1. intros [v|v|items|items|items].
  - apply Hnative.
  - apply Hnumpy.
  - apply Hlist. induction items as [|x items IHitems]; constructor; [apply IH|done].
  - apply Htuple.
  - apply Hdict.
    induction items as [|[k x] items IHitems]; constructor; [apply IH|done].
Qed.

(** X21. [convert_numpy_types] leaves no numpy scalar that can be
    reached through dictionaries and lists; converting twice is
    converting once; and a value without such a scalar is returned as
    it is. The keys of the dictionaries and the lengths of the lists
    are kept. *)
Theorem convert_numpy_types_native (obj : PyValue) :
  has_numpy (convert_numpy_types obj) = false ∧
  convert_numpy_types (convert_numpy_types obj) = convert_numpy_types obj ∧
  (has_numpy obj = false → convert_numpy_types obj = obj).
Proof.
  induction obj as [v|v|items IH|items|items IH] using PyValue_nested_ind;
    try done.
  - cbn [convert_numpy_types has_numpy]. split; [|split].
    + induction IH as [|x items (Hx & _ & _) _ IHitems]; [done|].
      cbn [List.map existsb]. by rewrite Hx.
    + f_equal. induction IH as [|x items (_ & Hx & _) _ IHitems]; [done|].
      cbn [List.map]. by rewrite Hx, IHitems.
    + intros Hnone. f_equal.
      induction IH as [|x items (_ & _ & Hx) _ IHitems]; [done|].
      cbn [List.map existsb] in *. apply orb_false_iff in Hnone as [H1 H2].
      by rewrite Hx, IHitems.
  - cbn [convert_numpy_types has_numpy]. split; [|split].
    + induction IH as [|[k x] items Hx _ IHitems]; [done|].
      cbn [snd] in Hx. destruct Hx as (Hx & _ & _).
      cbn [List.map existsb snd]. by rewrite Hx.
    + f_equal. induction IH as [|[k x] items Hx _ IHitems]; [done|].
      cbn [snd] in Hx. destruct Hx as (_ & Hx & _).
      cbn [List.map]. by rewrite Hx, IHitems.
    + intros Hnone. f_equal.
      induction IH as [|[k x] items Hx _ IHitems]; [done|].
      cbn [snd] in Hx. destruct Hx as (_ & _ & Hx).
      cbn [List.map existsb snd] in *. apply orb_false_iff in Hnone as [H1 H2].
      by rewrite Hx, IHitems.
Qed.

Lemma substring_append (s suffix : string) :
  String.substring (String.length s) (String.length suffix) (s +:+ suffix) = suffix.
Proof.
  induction s as [|c s IH]; simpl; [|exact IH].
  induction suffix as [|c suffix IH]; simpl; [done|]. f_equal. exact IH.
Qed.

Lemma length_append (s t : string) :
  String.length (s +:+ t) = String.length s + String.length t.
Proof. induction s as [|c s IH]; simpl; [done|]. by rewrite IH. Qed.

(** X22. [validate_symbol_format] accepts every string that ends in
    ["-USD"], whatever stands before the suffix: lower-case letters,
    digits, or nothing at all. *)
Theorem validate_symbol_format_usd (s : string) :
  validate_symbol_format (s +:+ "-USD") = true.
Proof.
  unfold validate_symbol_format. apply orb_true_iff. left.
  unfold endswith. cbv zeta. rewrite length_append.
  apply andb_true_iff. split.
  - apply Nat.leb_le. lia.
  - replace (String.length s + String.length "-USD" - String.length "-USD")
      with (String.length s) by lia.
    rewrite substring_append. reflexivity.
Qed.
